(** * isomer-mail: the outbound mail transmitter

    A shallow embedding of [isomer/mail/transmitter.py]: the worker task
    [send_mail_worker], the dispatcher [MailTransmitter.send_mail] and the
    result handler [MailTransmitter.task_success], with the properties the
    specification states about them. *)

From Stdlib Require Import String Ascii List ZArith Bool Lia.
Import ListNotations.
Open Scope string_scope.

(** ** Python values used by the module *)

(** The line feed that the source writes as a backslash followed by n. *)
Definition nl : string := String "010"%char EmptyString.

(** The exceptions that can leave the code under study.  [SMTPException]
    stands for every error of the SMTP session that is not a
    [socket.timeout] (authentication, protocol, connection errors). *)
Inductive exn : Type :=
| KeyError (key : string)
| IndexError
| socket_timeout (detail : string)
| SMTPException (detail : string).

Inductive result (A : Type) : Type :=
| Return (a : A)
| Raise (e : exn).
Arguments Return {A} a.
Arguments Raise {A} e.

(** A computation over a state [S] that may raise; what was done to the
    state before the exception stays done, as in Python. *)
Definition M (S A : Type) : Type := S -> S * result A.

Definition ret {S A} (a : A) : M S A := fun s => (s, Return a).

Definition bind {S A B} (c : M S A) (k : A -> M S B) : M S B :=
  fun s =>
    match c s with
    | (s', Return a) => k a s'
    | (s', Raise e) => (s', Raise e)
    end.

Definition raise {S A} (e : exn) : M S A := fun s => (s, Raise e).

Definition modify {S} (f : S -> S) : M S unit := fun s => (f s, Return tt).

Notation "x <- c ;; k" := (bind c (fun x => k))
  (at level 61, c at next level, right associativity).
Notation "c ;;; k" := (bind c (fun _ => k))
  (at level 61, right associativity).

(** [d[key]] on a dict whose key may be absent. *)
Definition getitem {S V} (key : string) (field : option V) : M S V :=
  match field with
  | Some v => ret v
  | None => raise (KeyError key)
  end.

(** [d.get(key, default)]. *)
Definition get {V} (field : option V) (default : V) : V :=
  match field with
  | Some v => v
  | None => default
  end.

(** [s.split(sep)] for a separator of one character: every occurrence
    separates, so adjacent separators give empty strings and the empty
    string gives one empty string. *)
Fixpoint split_when (is_sep : ascii -> bool) (s : string) : list string :=
  match s with
  | EmptyString => [EmptyString]
  | String c s' =>
      if is_sep c then EmptyString :: split_when is_sep s'
      else match split_when is_sep s' with
           | [] => [String c EmptyString]
           | w :: ws => String c w :: ws
           end
  end.

Definition split (s : string) (sep : ascii) : list string :=
  split_when (Ascii.eqb sep) s.

(** ** Data model *)

(** One entry of [configprops['accounts']]: a dict, every key optional
    (the schema declares no required property). *)
Record Account : Type := {
  name : option string;
  server : option string;
  port : option Z;
  ssl : option bool;
  tls : option bool;
  protocol : option string;
  mail_from : option string;
  username : option string;
  password : option string;
  use_sendmail : option bool;
  sendmail_extra_arguments : option string;
  sendmail_binary : option string
}.

(** [self.config] of the component. *)
Record Config : Type := {
  mail_send : bool;
  default_account : string;
  accounts : list Account
}.

(** The [send_mail] event the dispatcher receives. *)
Record send_mail_event : Type := {
  to_address : string;
  subject : string;
  text : string;
  account : string
}.

(** [MIMEText(text)] and the headers this module sets on it, in the order
    they are set ([msg[k] = v] appends). *)
Record MIMEText : Type := {
  payload : string;
  headers : list (string * string)
}.

Definition MIMEText_new (body : string) : MIMEText :=
  {| payload := body; headers := [] |}.

Definition setitem (m : MIMEText) (k v : string) : MIMEText :=
  {| payload := payload m; headers := headers m ++ [(k, v)] |}.

(** What [send_mail_worker] returns: [(success, log, event)]. *)
Definition DeliveryOutcome : Type := (bool * string * send_mail_event)%type.

(** ** The SMTP session *)

(** The calls the worker makes on [smtplib]. *)
Inductive smtp_call : Type :=
| Connect (use_ssl : bool) (host : string) (p : Z) (timeout : Z)
| StartTLS
| Login (user pass : string)
| SendMessage (mail : MIMEText)
| Quit.

(** How one call ends: it returns, it raises [socket.timeout], or it
    raises any other exception.  What the network does is not modelled,
    only what the call raises: a reply that does not arrive in time
    reaches the worker as the exception the library raises for it. *)
Inductive smtp_outcome (A : Type) : Type :=
| Done (a : A)
| TimedOut (detail : string)
| Failed (detail : string).
Arguments Done {A} a.
Arguments TimedOut {A} detail.
Arguments Failed {A} detail.

(** The server and network the worker talks to: the outcome of each call.
    [on_send_message] gives [str(response_send)]. *)
Record smtp_world : Type := {
  on_connect : bool -> string -> Z -> Z -> smtp_outcome unit;
  on_starttls : smtp_outcome unit;
  on_login : string -> string -> smtp_outcome unit;
  on_send_message : MIMEText -> smtp_outcome string;
  on_quit : smtp_outcome unit
}.

(** The worker's state: its local [log] and the calls made so far. *)
Record wstate : Type := {
  log : string;
  calls : list smtp_call
}.

Definition log_add (line : string) : M wstate unit :=
  modify (fun s => {| log := log s ++ line; calls := calls s |}).

Definition smtp {A} (c : smtp_call) (r : smtp_outcome A) : M wstate A :=
  fun s =>
    let s' := {| log := log s; calls := calls s ++ [c] |} in
    match r with
    | Done a => (s', Return a)
    | TimedOut d => (s', Raise (socket_timeout d))
    | Failed d => (s', Raise (SMTPException d))
    end.

Section Worker.

Variable W : smtp_world.

(** The body of the [try] of [send_mail_worker]; it returns
    [str(response_send)]. *)
Definition send_mail_worker_try (config : Account) (mail : MIMEText)
  : M wstate string :=
  let use_ssl := get (ssl config) true in
  host <- getitem "server" (server config) ;;
  p <- getitem "port" (port config) ;;
  smtp (Connect use_ssl host p 30) (on_connect W use_ssl host p 30) ;;;
  starttls <- getitem "tls" (tls config) ;;
  (if starttls : bool
   then log_add ("Starting TLS" ++ nl) ;;; smtp StartTLS (on_starttls W)
   else ret tt) ;;;
  user <- getitem "username" (username config) ;;
  (if negb (user =? "")
   then log_add ("Logging in with " ++ user ++ nl) ;;;
        pass <- getitem "password" (password config) ;;
        smtp (Login user pass) (on_login W user pass)
   else log_add ("No username, trying anonymous access" ++ nl)) ;;;
  log_add ("Sending Mail" ++ nl) ;;;
  response_send <- smtp (SendMessage mail) (on_send_message W mail) ;;
  smtp Quit (on_quit W) ;;;
  ret response_send.

(** [send_mail_worker(config, mail, event)]: the calls it made and what
    it returned or raised. *)
Definition send_mail_worker (config : Account) (mail : MIMEText)
    (event : send_mail_event) : list smtp_call * result DeliveryOutcome :=
  match send_mail_worker_try config mail {| log := ""; calls := [] |} with
  | (s, Raise (socket_timeout e)) =>
      let log' := log s ++ "Could not send email: " ++ e ++ nl in
      (calls s, Return (false, log', event))
  | (s, Raise e) => (calls s, Raise e)
  | (s, Return response_send) =>
      let log' := log s ++ "Server response:" ++ response_send in
      (calls s, Return (true, log', event))
  end.

End Worker.

(** ** The dispatcher *)

(** [lvl] of a log call; [info] is the framework's default. *)
Inductive lvl : Type := info | verbose | error.

(** The submitted [task(send_mail_worker, account, mime_mail, event)]. *)
Record task : Type := {
  task_config : Account;
  task_mail : MIMEText;
  task_event : send_mail_event
}.

(** The positional arguments of a [self.log] call. *)
Inductive log_arg : Type :=
| LStr (s : string)
| LMime (m : MIMEText)
| LCall (t : task)
| LTaskSuccess (t : task) (o : DeliveryOutcome).

(** What the component does to the outside, in order.  [RunProcess]
    carries the [(result, log)] pair the call returned. *)
Inductive effect : Type :=
| Log (args : list log_arg) (level : lvl) (pretty : bool)
| RunProcess (cwd : string) (args : list string) (stdin : string)
    (returned : bool * string)
| FireEvent (t : task) (channel : string).

Definition emit (e : effect) : M (list effect) unit :=
  modify (fun trace => (trace ++ [e])%list).

(** [self.log] with its positional arguments, [lvl] and [pretty]. *)
Definition self_log (args : list log_arg) (level : lvl) (pretty : bool)
  : M (list effect) unit :=
  emit (Log args level pretty).

(** How the delegated process ends. *)
Inductive process_end : Type :=
| Exited (status : Z) (output : string)
| NotStarted (reason : string).

(** Modelled from the spec: [isomer.tool.run_process], which is not among
    the repository's sources.  It runs the executable with the argument
    list, feeds [stdin] to it, and "success is determined by the process's
    exit status"; a command that "exits non-zero or cannot be started" is
    a failure. *)
Definition run_process
    (os : string -> list string -> string -> process_end)
    (cwd : string) (args : list string) (stdin : string) : bool * string :=
  match os cwd args stdin with
  | Exited status output => ((status =? 0)%Z, output)
  | NotStarted reason => (false, reason)
  end.

(** [list(filter(lambda account: account['name'] == account_name, l))]:
    the lambda reads ['name'] of every account of the list. *)
Fixpoint filter_name (account_name : string) (l : list Account)
  : result (list Account) :=
  match l with
  | [] => Return []
  | a :: l' =>
      match name a with
      | None => Raise (KeyError "name")
      | Some n =>
          match filter_name account_name l' with
          | Raise e => Raise e
          | Return r => Return (if n =? account_name then a :: r else r)
          end
      end
  end.

(** [l[0]]. *)
Definition index0 {S A} (l : list A) : M S A :=
  match l with
  | [] => raise IndexError
  | x :: _ => ret x
  end.

Definition lift {S A} (r : result A) : M S A := fun s => (s, r).

Section Transmitter.

(** [pystache.render], applied to a template and the variables given as
    key/value pairs. *)
Variable render : string -> list (string * string) -> string.
(** [Message.as_string] of the standard library. *)
Variable as_string : MIMEText -> string.
(** The operating system behind [run_process]. *)
Variable os : string -> list string -> string -> process_end.
(** [self.hostname], read once when the component starts. *)
Variable hostname : string.
(** [self.config]. *)
Variable config : Config.

(** The account name a request resolves to (lines 255-258). *)
Definition account_name (event : send_mail_event) : string :=
  if account event =? "default" then default_account config
  else account event.

(** The account the request is sent with (lines 260-261): the head of
    the filtered list. *)
Definition lookup_account {S} (event : send_mail_event) : M S Account :=
  matching <- lift (filter_name (account_name event) (accounts config)) ;;
  index0 matching.

(** [MailTransmitter.send_mail(self, event)]. *)
Definition send_mail (event : send_mail_event) : M (list effect) unit :=
  let mime_mail := MIMEText_new (text event) in
  let mime_mail := setitem mime_mail "Subject" (subject event) in
  account <- lookup_account event ;;
  template <- getitem "mail_from" (mail_from account) ;;
  host <- getitem "server" (server account) ;;
  let mime_mail :=
    setitem mime_mail "From"
      (render template [("server", host); ("hostname", hostname)]) in
  let mime_mail := setitem mime_mail "To" (to_address event) in
  self_log [LStr "MimeMail:"; LMime mime_mail] verbose false ;;;
  if mail_send config then
    self_log [LStr "Sending mail to"; LStr (to_address event)] info false ;;;
    delegate <- getitem "use_sendmail" (use_sendmail account) ;;
    if delegate : bool then
      self_log [LStr "Would now task sendmail to send the mail"]
        info false ;;;
      binary <- getitem "sendmail_binary" (sendmail_binary account) ;;
      arguments <- getitem "sendmail_extra_arguments"
                     (sendmail_extra_arguments account) ;;
      let argv := ([binary] ++ split arguments " ")%list in
      let stdin := as_string mime_mail in
      emit (RunProcess "" argv stdin (run_process os "" argv stdin))
    else
      emit (FireEvent
              {| task_config := account; task_mail := mime_mail;
                 task_event := event |}
              "mail-transmit-workers")
  else
    self_log [LStr "Not sending mail, here it is for debugging info:";
              LMime mime_mail] info true.

(** One dispatch from an empty trace: what it did, and how it ended. *)
Definition dispatch (event : send_mail_event)
  : list effect * result unit :=
  send_mail event [].

(** The message the dispatcher builds for a request and an account whose
    template is [template] and server is [host] (lines 252-267). *)
Definition built_mail (event : send_mail_event) (template host : string)
  : MIMEText :=
  setitem
    (setitem
       (setitem (MIMEText_new (text event)) "Subject" (subject event))
       "From" (render template [("server", host); ("hostname", hostname)]))
    "To" (to_address event).

End Transmitter.

(** [MailTransmitter.task_success(self, event, call, result)]; [event] is
    the completion event of the task, which carries the call and its
    result. *)
Definition task_success (call : task) (result : DeliveryOutcome)
  : M (list effect) unit :=
  let '(success, log, originating_event) := result in
  if success : bool then
    self_log [LStr "Sent mail successfully."] info false
  else
    self_log [LStr "Sending mail failed:"; LTaskSuccess call result;
              LCall call; LStr log] error false.

(** ** The Address Renderer *)

Module Renderer.

(** Modelled from the spec: what the Address Renderer sees in a template,
    literal text and "named placeholders".  The renderer is [render] of
    the pystache library, which is not among the repository's sources. *)
Inductive segment : Type :=
| Literal (s : string)
| Placeholder (key : string).

Definition open_tag : string := "{{".
Definition close_tag : string := "}}".

(** Modelled from the spec: the reading of a template, from left to
    right, with placeholders written as in the specification's example,
    a name between two opening and two closing braces.  Outside a
    placeholder [acc] is the literal text read so far, inside one it is
    the name read so far; a placeholder that is never closed is literal
    text. *)
Fixpoint scan (inside : bool) (acc : string) (t : string) : list segment :=
  match t with
  | EmptyString =>
      if inside then [Literal (open_tag ++ acc)] else [Literal acc]
  | String c t' =>
      let brace := if inside then "}"%char else "{"%char in
      let continue := scan inside (acc ++ String c EmptyString) t' in
      if Ascii.eqb c brace then
        match t' with
        | String c' t'' =>
            if Ascii.eqb c' brace then
              (if inside then Placeholder acc else Literal acc)
                :: scan (negb inside) EmptyString t''
            else continue
        | EmptyString => continue
        end
      else continue
  end.

(** [vars[key]] when the key is there. *)
Fixpoint lookup (key : string) (vars : list (string * string))
  : option string :=
  match vars with
  | [] => None
  | (k, v) :: vars' => if k =? key then Some v else lookup key vars'
  end.

(** Modelled from the spec: "pure substitution of named placeholders;
    unknown placeholders are left as literal text (no error)". *)
Definition expand (vars : list (string * string)) (seg : segment) : string :=
  match seg with
  | Literal s => s
  | Placeholder key =>
      match lookup key vars with
      | Some v => v
      | None => open_tag ++ key ++ close_tag
      end
  end.

Definition join (vars : list (string * string)) (segs : list segment)
  : string :=
  fold_right (fun seg out => expand vars seg ++ out) EmptyString segs.

(** Modelled from the spec: the Address Renderer, [render] of the
    pystache library, which is not among the repository's sources.
    "Pure substitution of named placeholders; unknown placeholders are
    left as literal text (no error)."  A placeholder is a name between
    two opening and two closing braces. *)
Definition render (template : string) (vars : list (string * string))
  : string :=
  join vars (scan false EmptyString template).

(** No character of [s] satisfies [p]. *)
Fixpoint free_of (p : ascii -> bool) (s : string) : bool :=
  match s with
  | EmptyString => true
  | String c s' => negb (p c) && free_of p s'
  end.

End Renderer.

(** ** Sample data *)

Module Sample.

(** The account of the schema's default registry, with the schema's
    defaults for the keys the default registry leaves out. *)
Definition localhost : Account :=
  {| name := Some "localhost"; server := Some "localhost";
     port := Some 25%Z; ssl := Some false; tls := Some false;
     protocol := Some "smtp"; mail_from := Some "bot@{{server}}";
     username := Some ""; password := None;
     use_sendmail := Some false;
     sendmail_extra_arguments := Some "-t -oi";
     sendmail_binary := Some "/usr/bin/sendmail" |}.

(** The account of the schema's default registry as it is written
    there, with five keys. *)
Definition schema_default : Account :=
  {| name := Some "localhost"; server := Some "localhost";
     port := Some 25%Z; ssl := Some false; tls := None;
     protocol := None; mail_from := Some "bot@{{server}}";
     username := None; password := None;
     use_sendmail := None;
     sendmail_extra_arguments := None;
     sendmail_binary := None |}.

(** The request of [cli_mail_test], sent to the default account. *)
Definition testmail : send_mail_event :=
  {| to_address := "root@localhost"; subject := "Testmail";
     text := "Hello dear test mail receiver!"; account := "default" |}.

Definition config : Config :=
  {| mail_send := true; default_account := "localhost";
     accounts := [localhost] |}.

(** A server that accepts everything. *)
Definition healthy : smtp_world :=
  {| on_connect := fun _ _ _ _ => Done tt; on_starttls := Done tt;
     on_login := fun _ _ => Done tt;
     on_send_message := fun _ => Done "{}"; on_quit := Done tt |}.

(** A serialisation of the message: headers, an empty line, the text. *)
Definition as_string (m : MIMEText) : string :=
  fold_right (fun h out => fst h ++ ": " ++ snd h ++ nl ++ out)
    (nl ++ payload m) (headers m).

(** A process that exits with status 0 and prints nothing. *)
Definition os_ok : string -> list string -> string -> process_end :=
  fun _ _ _ => Exited 0 "".

(** An account with credentials. *)
Definition relay : Account :=
  {| name := Some "relay"; server := Some "mail.example.org";
     port := Some 587%Z; ssl := Some false; tls := Some true;
     protocol := Some "smtp"; mail_from := Some "bot@{{server}}";
     username := Some "bot"; password := Some "secret";
     use_sendmail := Some false;
     sendmail_extra_arguments := Some "-t -oi";
     sendmail_binary := Some "/usr/bin/sendmail" |}.

(** A server that refuses the credentials. *)
Definition rejecting : smtp_world :=
  {| on_connect := fun _ _ _ _ => Done tt; on_starttls := Done tt;
     on_login := fun _ _ => Failed "(535, b'Authentication failed')";
     on_send_message := fun _ => Done "{}"; on_quit := Done tt |}.

(** A server that does not answer the connection. *)
Definition silent : smtp_world :=
  {| on_connect := fun _ _ _ _ => TimedOut "timed out";
     on_starttls := Done tt; on_login := fun _ _ => Done tt;
     on_send_message := fun _ => Done "{}"; on_quit := Done tt |}.

Definition tab : string := String "009"%char EmptyString.

(** An account that delegates to the local sendmail, with the given
    argument string. *)
Definition local (arguments : string) : Account :=
  {| name := Some "local"; server := Some "localhost";
     port := Some 25%Z; ssl := Some false; tls := Some false;
     protocol := Some "smtp"; mail_from := Some "bot@{{hostname}}";
     username := Some ""; password := None;
     use_sendmail := Some true;
     sendmail_extra_arguments := Some arguments;
     sendmail_binary := Some "/usr/bin/sendmail" |}.

Definition config_of (send : bool) (default : string)
    (registry : list Account) : Config :=
  {| mail_send := send; default_account := default;
     accounts := registry |}.

Definition request (selector : string) : send_mail_event :=
  {| to_address := "root@localhost"; subject := "Testmail";
     text := "Hello dear test mail receiver!"; account := selector |}.

End Sample.

(** ** The vocabulary of the specification *)

Definition is_run_process (e : effect) : bool :=
  match e with RunProcess _ _ _ _ => true | _ => false end.

Definition is_fire_event (e : effect) : bool :=
  match e with FireEvent _ _ => true | _ => false end.

Definition is_error_log (e : effect) : bool :=
  match e with Log _ error _ => true | _ => false end.

(** The uses of the Delegated Command Backend in a trace. *)
Definition delegated_runs (trace : list effect) : list effect :=
  filter is_run_process trace.

(** The tasks submitted to the worker pool in a trace. *)
Definition submitted (trace : list effect) : list task :=
  flat_map (fun e => match e with
                     | FireEvent t channel =>
                         if channel =? "mail-transmit-workers" then [t]
                         else []
                     | _ => []
                     end) trace.

(** Modelled from the spec: the worker pool of the hosting framework,
    which is not among the repository's sources.  The "task outcome"
    carrying a DeliveryOutcome is "emitted by the worker pool
    infrastructure when a submitted Direct SMTP Delivery Backend call
    completes" and is consumed by the Result Reporter; a call that raises
    has no DeliveryOutcome to carry. *)
Definition task_outcome (W : smtp_world) (t : task) : list DeliveryOutcome :=
  match snd (send_mail_worker W (task_config t) (task_mail t)
               (task_event t)) with
  | Return outcome => [outcome]
  | Raise _ => []
  end.

(** The DeliveryOutcomes that reach [task_success] for a trace. *)
Definition delivered (W : smtp_world) (trace : list effect)
  : list DeliveryOutcome :=
  flat_map (task_outcome W) (submitted trace).

(** What the Result Reporter logs for a trace: one [task_success] for
    each DeliveryOutcome that reaches it. *)
Definition reported (W : smtp_world) (trace : list effect) : list effect :=
  flat_map (fun t =>
              flat_map (fun o => fst (task_success t o [])) (task_outcome W t))
    (submitted trace).

(** How a call ends in a world, whatever it returns. *)
Inductive ending : Type :=
| Succeeds
| TimesOut (detail : string)
| Fails (detail : string).

Definition ending_of {A} (r : smtp_outcome A) : ending :=
  match r with
  | Done _ => Succeeds
  | TimedOut d => TimesOut d
  | Failed d => Fails d
  end.

Definition outcome_of (W : smtp_world) (c : smtp_call) : ending :=
  match c with
  | Connect use_ssl host p t => ending_of (on_connect W use_ssl host p t)
  | StartTLS => ending_of (on_starttls W)
  | Login user pass => ending_of (on_login W user pass)
  | SendMessage mail => ending_of (on_send_message W mail)
  | Quit => ending_of (on_quit W)
  end.

(** The session of section 4.3 of the specification, steps 1 to 5, for an
    account whose settings are the arguments. *)
Definition session_plan (use_ssl : bool) (host : string) (p : Z)
    (starttls : bool) (user pass : string) (mail : MIMEText)
  : list smtp_call :=
  ([Connect use_ssl host p 30]
   ++ (if starttls then [StartTLS] else [])
   ++ (if user =? "" then [] else [Login user pass])
   ++ [SendMessage mail; Quit])%list.

(** The line the worker adds to its log for a call, if it adds one. *)
Definition step_line (c : smtp_call) : option string :=
  match c with
  | Connect _ _ _ _ => None
  | StartTLS => Some ("Starting TLS" ++ nl)
  | Login user _ => Some ("Logging in with " ++ user ++ nl)
  | SendMessage _ => Some ("Sending Mail" ++ nl)
  | Quit => None
  end.

(** [sub] occurs in [s]. *)
Fixpoint occurs (sub s : string) : bool :=
  prefix sub s ||
  match s with
  | EmptyString => false
  | String _ s' => occurs sub s'
  end.

(** The log of a send in which every step succeeded. *)
Definition success_log (starttls : bool) (user response : string) : string :=
  (if starttls then "Starting TLS" ++ nl else "")
  ++ (if user =? "" then "No username, trying anonymous access" ++ nl
      else "Logging in with " ++ user ++ nl)
  ++ "Sending Mail" ++ nl
  ++ "Server response:" ++ response.

(** The sentence of the specification on the success log: every step
    taken is recorded in it. *)
Definition records_every_step (steps : list smtp_call) (log : string)
  : Prop :=
  forall c, In c steps ->
    exists line, step_line c = Some line /\ occurs line log = true.

(** White space: space, tab, line feed, vertical tab, form feed,
    carriage return. *)
Definition is_whitespace (c : ascii) : bool :=
  let n := nat_of_ascii c in
  Nat.eqb n 32 || (Nat.leb 9 n && Nat.leb n 13).

(** The words of the specification, "split on whitespace": the maximal
    runs of characters that are not white space. *)
Definition split_whitespace (s : string) : list string :=
  filter (fun w => negb (w =? "")) (split_when is_whitespace s).

(** The backend reports a failure as the specification says it reports a
    timeout: it returns a DeliveryOutcome whose success is false. *)
Definition reported_as_failure (r : result DeliveryOutcome) : Prop :=
  exists l e, r = Return (false, l, e).

(** The dispatcher logged at the error level. *)
Definition logged_error (trace : list effect) : bool :=
  existsb is_error_log trace.

(** No exception leaves the dispatcher. *)
Definition returns_normally (r : result unit) : Prop := r = Return tt.

(** The argument list of the specification for the delegated command:
    the binary, then the argument string split on white space. *)
Definition spec_argv (binary arguments : string) : list string :=
  binary :: split_whitespace arguments.

(** The argument lists of the delegated runs of a trace. *)
Definition argvs (trace : list effect) : list (list string) :=
  flat_map (fun e => match e with
                     | RunProcess _ args _ _ => [args]
                     | _ => []
                     end) trace.

(** The request resolves to the account [a]: [a] is the head of the
    filtered list of line 260. *)
Definition resolves_to (config : Config) (event : send_mail_event)
    (a : Account) : Prop :=
  exists later,
    filter_name (account_name config event) (accounts config)
    = Return (a :: later).

(** [a] is the first account of the registry whose name is [n]. *)
Definition first_named (n : string) (registry : list Account) (a : Account)
  : Prop :=
  exists before after,
    registry = (before ++ a :: after)%list /\
    name a = Some n /\
    forall b, In b before -> name b <> Some n.

(** The configuration with another registry, or another default account. *)
Definition with_accounts (config : Config) (registry : list Account)
  : Config :=
  {| mail_send := mail_send config;
     default_account := default_account config;
     accounts := registry |}.

Definition with_default (config : Config) (n : string) : Config :=
  {| mail_send := mail_send config;
     default_account := n;
     accounts := accounts config |}.

(** ** The configuration schema *)

Module Schema.

(** The defaults that [configprops] declares for the keys of an account
    (the [properties] of the items of ['accounts']); [password] has
    none. *)
Definition properties_default : Account :=
  {| name := Some "localhost"; server := Some "localhost";
     port := Some 465%Z; ssl := Some true; tls := Some false;
     protocol := Some "smtp"; mail_from := Some "bot@{{server}}";
     username := Some ""; password := None;
     use_sendmail := Some false;
     sendmail_extra_arguments := Some "-t -oi";
     sendmail_binary := Some "/usr/bin/sendmail" |}.

End Schema.

(** The account has every key for which the schema declares a default. *)
Definition has_defaulted_keys (a : Account) : Prop :=
  (name Schema.properties_default <> None -> name a <> None) /\
  (server Schema.properties_default <> None -> server a <> None) /\
  (port Schema.properties_default <> None -> port a <> None) /\
  (ssl Schema.properties_default <> None -> ssl a <> None) /\
  (tls Schema.properties_default <> None -> tls a <> None) /\
  (protocol Schema.properties_default <> None -> protocol a <> None) /\
  (mail_from Schema.properties_default <> None -> mail_from a <> None) /\
  (username Schema.properties_default <> None -> username a <> None) /\
  (password Schema.properties_default <> None -> password a <> None) /\
  (use_sendmail Schema.properties_default <> None ->
   use_sendmail a <> None) /\
  (sendmail_extra_arguments Schema.properties_default <> None ->
   sendmail_extra_arguments a <> None) /\
  (sendmail_binary Schema.properties_default <> None ->
   sendmail_binary a <> None).

(** [c] occurs in [s]. *)
Fixpoint has_char (c : ascii) (s : string) : bool :=
  match s with
  | EmptyString => false
  | String x s' => Ascii.eqb c x || has_char c s'
  end.

(** The number of occurrences of [c] in [s]. *)
Fixpoint count_char (c : ascii) (s : string) : nat :=
  match s with
  | EmptyString => 0
  | String x s' => (if Ascii.eqb c x then 1 else 0) + count_char c s'
  end.

(** A word: not empty, and without white space. *)
Definition is_word (w : string) : Prop :=
  w <> "" /\ forall c, has_char c w = true -> is_whitespace c = false.

(** The request with another account selector. *)
Definition with_selector (event : send_mail_event) (selector : string)
  : send_mail_event :=
  {| to_address := to_address event; subject := subject event;
     text := text event; account := selector |}.

(** The number of backend uses in a trace: delegated runs and fired
    tasks. *)
Definition backend_uses (trace : list effect) : nat :=
  length (delegated_runs trace) + length (filter is_fire_event trace).

(** ** Sample data for the edge cases *)

Module Edge.

(** An account dict without a name. *)
Definition unnamed : Account :=
  {| name := None; server := Some "other"; port := None; ssl := None;
     tls := None; protocol := None; mail_from := None;
     username := None; password := None; use_sendmail := None;
     sendmail_extra_arguments := None; sendmail_binary := None |}.

(** An account whose name is the reserved selector. *)
Definition named_default : Account :=
  {| name := Some "default"; server := Some "localhost";
     port := Some 25%Z; ssl := Some false; tls := Some false;
     protocol := Some "smtp"; mail_from := Some "bot@{{server}}";
     username := Some ""; password := None;
     use_sendmail := Some false;
     sendmail_extra_arguments := Some "-t -oi";
     sendmail_binary := Some "/usr/bin/sendmail" |}.

(** A server that accepts the message and then does not answer [quit] in
    time: the library raises its SMTPServerDisconnected for the reply it
    could not read, not [socket.timeout]. *)
Definition stalled_quit : smtp_world :=
  {| on_connect := fun _ _ _ _ => Done tt; on_starttls := Done tt;
     on_login := fun _ _ => Done tt;
     on_send_message := fun _ => Done "{}";
     on_quit := Failed "Connection unexpectedly closed: timed out" |}.

End Edge.

(** ** Proof automation *)

(** Unfolds the worker down to its monad. *)
Ltac unfold_worker :=
  unfold send_mail_worker, send_mail_worker_try, bind, getitem, ret, raise,
    smtp, log_add, modify, get in *.

(** Splits on the scrutinee that the worker evaluates next. *)
Ltac split_step :=
  match goal with
  | |- context [match ?x with _ => _ end] =>
      lazymatch x with
      | context [match _ with _ => _ end] => fail
      | outcome_of _ _ => fail
      | _ => let E := fresh "E" in destruct x eqn:E
      end
  end.

(** Runs the worker through every way its calls can end. *)
Ltac split_cases :=
  repeat (split_step; cbn [fst snd log calls app negb removelast last]).

(** Evaluates [outcome_of] with the outcomes the case at hand fixes. *)
Ltac known_outcome :=
  cbn [outcome_of];
  repeat match goal with
         | E : _ = Done _ |- _ => rewrite E; clear E
         | E : _ = TimedOut _ |- _ => rewrite E; clear E
         | E : _ = Failed _ |- _ => rewrite E; clear E
         end;
  cbn [ending_of].

(** Unfolds the dispatcher down to its monad. *)
Ltac unfold_dispatch :=
  unfold dispatch, send_mail, lookup_account, bind, lift, index0, getitem,
    self_log, emit, modify, ret, raise, built_mail in *.

(** ** Strings and lists *)

Lemma append_assoc (a b c : string) : (a ++ b) ++ c = a ++ b ++ c.
Proof.
  induction a as [|x a IH]; cbn; [reflexivity | now rewrite IH].
Qed.

Lemma prefix_append (a b : string) : prefix a (a ++ b) = true.
Proof.
  induction a as [|x a IH]; cbn.
  - now destruct b.
  - destruct (ascii_dec x x) as [_|N]; [exact IH | now destruct N].
Qed.

Lemma occurs_prefix (sub s : string) : prefix sub s = true -> occurs sub s = true.
Proof.
  intros H. destruct s; cbn [occurs]; rewrite H; reflexivity.
Qed.

Lemma occurs_append (sub before after : string) :
  occurs sub (before ++ sub ++ after) = true.
Proof.
  induction before as [|x before IH]; cbn [append].
  - apply occurs_prefix, prefix_append.
  - cbn [occurs]. rewrite IH. apply orb_true_r.
Qed.

Lemma in_last_or_before {A} (x d : A) (l : list A) :
  In x l -> In x (removelast l) \/ (x = last l d /\ l = (removelast l ++ [x])%list).
Proof.
  intros Hin.
  assert (Hne : l <> []) by (intros ->; contradiction).
  pose proof (app_removelast_last d Hne) as Hl.
  rewrite Hl in Hin. apply in_app_or in Hin.
  destruct Hin as [Hin | [<- | []]]; [now left | right].
  split; [reflexivity | exact Hl].
Qed.

(** ** The worker *)

(** Every call but the last one succeeded: the worker stops at the first
    call that does not. *)
Lemma earlier_calls_succeeded W config mail event c :
  In c (removelast (fst (send_mail_worker W config mail event))) ->
  outcome_of W c = Succeeds.
Proof.
  unfold_worker. split_cases; cbn [In]; intros Hin;
    repeat (destruct Hin as [<- | Hin]; [now known_outcome |]);
    contradiction.
Qed.

(** What the worker returns when its last call did not succeed. *)
Lemma last_call_decides W config mail event c0 :
  fst (send_mail_worker W config mail event) <> [] ->
  match outcome_of W (last (fst (send_mail_worker W config mail event)) c0) with
  | Succeeds => True
  | TimesOut d =>
      exists l, snd (send_mail_worker W config mail event)
                = Return (false, l ++ "Could not send email: " ++ d ++ nl, event)
  | Fails d =>
      snd (send_mail_worker W config mail event) = Raise (SMTPException d)
  end.
Proof.
  unfold_worker. split_cases; intros Hne; try (now destruct Hne);
    known_outcome; try exact I; try reflexivity; eexists; reflexivity.
Qed.

Lemma succeeds_done {A} (r : smtp_outcome A) :
  ending_of r = Succeeds -> exists a, r = Done a.
Proof.
  destruct r; cbn; intros H; try discriminate. now eexists.
Qed.

Section DirectSend.

Variables (W : smtp_world) (config : Account) (mail : MIMEText)
  (event : send_mail_event).
Variables (host : string) (p : Z) (starttls : bool) (user pass : string).

(** The account has the keys the worker reads. *)
Hypothesis has_server : server config = Some host.
Hypothesis has_port : port config = Some p.
Hypothesis has_tls : tls config = Some starttls.
Hypothesis has_username : username config = Some user.
Hypothesis has_password : user <> "" -> password config = Some pass.

Local Abbreviation plan :=
  (session_plan (get (ssl config) true) host p starttls user pass mail).

Ltac with_keys :=
  unfold_worker;
  rewrite has_server, has_port, has_tls, has_username;
  destruct (String.eqb_spec user "") as [Hanon | Hnamed];
  [ | rewrite (has_password Hnamed) ];
  cbn [negb].

(** The worker connects, and the calls it makes are the first calls of
    the plan. *)
Lemma run_follows_plan :
  fst (send_mail_worker W config mail event) <> [] /\
  exists rest,
    plan = (fst (send_mail_worker W config mail event) ++ rest)%list.
Proof.
  unfold session_plan.
  with_keys; split_cases;
    (split; [discriminate | cbn [app]; eexists; reflexivity]).
Qed.

(** When no call of the plan fails, the worker makes them all and
    reports success with the log of the steps and the response. *)
Lemma healthy_run :
  (forall c, In c plan -> outcome_of W c = Succeeds) ->
  exists response,
    on_send_message W mail = Done response /\
    send_mail_worker W config mail event
    = (plan, Return (true, success_log starttls user response, event)).
Proof.
  unfold session_plan, success_log.
  with_keys; destruct starttls; cbn [app]; intros Hall;
    repeat match goal with
      | |- context [match ?r with Done _ => _ | _ => _ end] =>
          let H := fresh "H" in
          let a := fresh "a" in
          assert (H : exists a, r = Done a)
            by (apply succeeds_done;
                first [ apply (Hall (Connect (get (ssl config) true) host p 30))
                      | apply (Hall StartTLS)
                      | apply (Hall (Login user pass))
                      | apply (Hall (SendMessage mail))
                      | apply (Hall Quit) ];
                cbn [In]; tauto);
          destruct H as [a H]; rewrite H;
          cbn [fst snd log calls app]
      end;
    eexists; (split; [reflexivity |]);
    rewrite ?append_assoc; reflexivity.
Qed.

(** C6: a direct SMTP send opens the session to the account's server and
    port with a timeout of 30, over SSL when the account's [ssl] is set (or
    absent, the schema's default) and in plain text otherwise; then issues
    STARTTLS when [tls] is set; then logs in exactly when the username is
    not empty; then submits the message and quits.  The calls made are
    always the first calls of this plan, in its order, starting with the
    connection, and when no call of the plan fails they are the whole plan
    and the send succeeds. *)
Theorem direct_send_session_order :
  fst (send_mail_worker W config mail event) <> [] /\
  (exists rest,
     session_plan (get (ssl config) true) host p starttls user pass mail
     = (fst (send_mail_worker W config mail event) ++ rest)%list) /\
  ((forall c,
       In c (session_plan (get (ssl config) true) host p starttls user pass
               mail) ->
       outcome_of W c = Succeeds) ->
   fst (send_mail_worker W config mail event)
   = session_plan (get (ssl config) true) host p starttls user pass mail /\
   exists l, snd (send_mail_worker W config mail event)
             = Return (true, l, event)).
Proof.
  destruct run_follows_plan as [Hconnects Hprefix].
  split; [exact Hconnects | split; [exact Hprefix |]].
  intros Hall. destruct (healthy_run Hall) as [response [_ Hrun]].
  rewrite Hrun. split; [reflexivity | eexists; reflexivity].
Qed.

End DirectSend.

Lemma direct_send_session_order_witness :
  fst (send_mail_worker Sample.healthy Sample.relay (MIMEText_new "hello")
         Sample.testmail)
  = [Connect false "mail.example.org" 587 30; StartTLS; Login "bot" "secret";
     SendMessage (MIMEText_new "hello"); Quit].
Proof.
  refine (proj1 (proj2 (proj2
    (direct_send_session_order Sample.healthy Sample.relay
       (MIMEText_new "hello") Sample.testmail "mail.example.org" 587%Z true
       "bot" "secret" eq_refl eq_refl eq_refl eq_refl (fun _ => eq_refl))) _)).
  intros c Hin. cbn in Hin.
  repeat (destruct Hin as [<- | Hin]; [reflexivity |]). contradiction.
Defined.

(** C2, as it holds: a failure other than a timeout at a call of a direct
    SMTP send is not caught.  The exception leaves [send_mail_worker], the
    failed call is the last one made, and no DeliveryOutcome is returned. *)
Theorem other_failures_propagate W config mail event c d :
  In c (fst (send_mail_worker W config mail event)) ->
  outcome_of W c = Fails d ->
  snd (send_mail_worker W config mail event) = Raise (SMTPException d) /\
  (exists before,
     fst (send_mail_worker W config mail event) = (before ++ [c])%list) /\
  ~ reported_as_failure (snd (send_mail_worker W config mail event)).
Proof.
  intros Hin Hfails.
  destruct (in_last_or_before c c _ Hin) as [Hearlier | [Hlast Hcalls]].
  - apply earlier_calls_succeeded in Hearlier. congruence.
  - assert (Hne : fst (send_mail_worker W config mail event) <> [])
      by (intros E; rewrite E in Hin; contradiction).
    pose proof (last_call_decides W config mail event c Hne) as Hres.
    rewrite <- Hlast, Hfails in Hres.
    split; [exact Hres | split; [eexists; exact Hcalls |]].
    rewrite Hres. intros [l [e He]]. discriminate.
Qed.

Lemma other_failures_propagate_witness :
  snd (send_mail_worker Sample.rejecting Sample.relay (MIMEText_new "hello")
         Sample.testmail)
  = Raise (SMTPException "(535, b'Authentication failed')").
Proof.
  refine (proj1 (other_failures_propagate Sample.rejecting Sample.relay
                   (MIMEText_new "hello") Sample.testmail
                   (Login "bot" "secret") _ _ eq_refl)).
  cbn. tauto.
Defined.

(** C2 as the specification states it fails: the server refuses the
    credentials of the account, the login fails, and the worker raises
    instead of returning a failed DeliveryOutcome. *)
Lemma authentication_failure_not_reported :
  In (Login "bot" "secret")
    (fst (send_mail_worker Sample.rejecting Sample.relay
            (MIMEText_new "hello") Sample.testmail)) /\
  outcome_of Sample.rejecting (Login "bot" "secret")
  = Fails "(535, b'Authentication failed')" /\
  snd (send_mail_worker Sample.rejecting Sample.relay (MIMEText_new "hello")
         Sample.testmail)
  = Raise (SMTPException "(535, b'Authentication failed')") /\
  ~ reported_as_failure
      (snd (send_mail_worker Sample.rejecting Sample.relay
              (MIMEText_new "hello") Sample.testmail)).
Proof.
  split; [cbn; tauto | split; [reflexivity | split; [reflexivity |]]].
  intros [l [e He]]. discriminate.
Qed.

(** C7, as it holds: when a call of a direct SMTP send raises
    [socket.timeout], the worker makes no further call (that call is the
    last one), raises nothing, and returns success false with a log that
    ends with the timeout's detail.  When a call raises any other
    exception, as the library does for a reply that does not arrive in
    time, the worker makes no further call either and the exception
    leaves it.  When the account has the keys the worker reads and
    no call of the session fails, it returns success true with the log of
    the STARTTLS step (when taken), of the login or of the anonymous
    access, and of the submission, followed by the server's response; the
    line of every call that has one occurs in that log.  The connection
    and the end of the session are not logged. *)
Theorem timeout_and_success_outcomes W config mail event :
  (forall c d,
      In c (fst (send_mail_worker W config mail event)) ->
      outcome_of W c = TimesOut d ->
      (exists before,
         fst (send_mail_worker W config mail event) = (before ++ [c])%list) /\
      exists l,
        snd (send_mail_worker W config mail event)
        = Return (false, l ++ "Could not send email: " ++ d ++ nl, event)) /\
  (forall host p starttls user pass,
      server config = Some host ->
      port config = Some p ->
      tls config = Some starttls ->
      username config = Some user ->
      (user <> "" -> password config = Some pass) ->
      (forall c,
          In c (session_plan (get (ssl config) true) host p starttls user
                  pass mail) ->
          outcome_of W c = Succeeds) ->
      exists response,
        on_send_message W mail = Done response /\
        snd (send_mail_worker W config mail event)
        = Return (true, success_log starttls user response, event) /\
        (forall c line,
            In c (fst (send_mail_worker W config mail event)) ->
            step_line c = Some line ->
            occurs line (success_log starttls user response) = true) /\
        step_line (Connect (get (ssl config) true) host p 30) = None /\
        step_line Quit = None) /\
  (forall c d,
      In c (fst (send_mail_worker W config mail event)) ->
      outcome_of W c = Fails d ->
      (exists before,
         fst (send_mail_worker W config mail event) = (before ++ [c])%list) /\
      snd (send_mail_worker W config mail event) = Raise (SMTPException d)).
Proof.
  split; [| split].
  - intros c d Hin Htimeout.
    destruct (in_last_or_before c c _ Hin) as [Hearlier | [Hlast Hcalls]].
    + apply earlier_calls_succeeded in Hearlier. congruence.
    + assert (Hne : fst (send_mail_worker W config mail event) <> [])
        by (intros E; rewrite E in Hin; contradiction).
      pose proof (last_call_decides W config mail event c Hne) as Hres.
      rewrite <- Hlast, Htimeout in Hres.
      split; [eexists; exact Hcalls | exact Hres].
  - intros host p starttls user pass Hs Hp Ht Hu Hpw Hall.
    destruct (healthy_run W config mail event host p starttls user pass
                Hs Hp Ht Hu Hpw Hall) as [response [Hsend Hrun]].
    exists response. rewrite Hrun. cbn [fst snd].
    split; [exact Hsend | split; [reflexivity | split; [| now split]]].
    intros c line Hin Hline. unfold session_plan in Hin.
    unfold success_log.
    cbn [app In] in Hin. destruct Hin as [<- | Hin]; [discriminate |].
    apply in_app_or in Hin. destruct Hin as [Hin | Hin].
    { destruct starttls; [| contradiction].
      destruct Hin as [<- | []]. injection Hline as <-.
      apply occurs_prefix, prefix_append. }
    apply in_app_or in Hin. destruct Hin as [Hin | Hin].
    { destruct (user =? ""); [contradiction |].
      destruct Hin as [<- | []]. injection Hline as <-.
      apply occurs_append. }
    destruct Hin as [<- | [<- | []]]; [| discriminate].
    injection Hline as <-.
    rewrite <- (append_assoc _ _ ("Sending Mail" ++ nl ++ _)).
    rewrite <- (append_assoc "Sending Mail" nl).
    apply occurs_append.
  - intros c d Hin Hfails.
    destruct (in_last_or_before c c _ Hin) as [Hearlier | [Hlast Hcalls]].
    + apply earlier_calls_succeeded in Hearlier. congruence.
    + assert (Hne : fst (send_mail_worker W config mail event) <> [])
        by (intros E; rewrite E in Hin; contradiction).
      pose proof (last_call_decides W config mail event c Hne) as Hres.
      rewrite <- Hlast, Hfails in Hres.
      split; [eexists; exact Hcalls | exact Hres].
Qed.

Lemma timeout_and_success_outcomes_witness :
  (exists l,
     snd (send_mail_worker Sample.silent Sample.localhost
            (MIMEText_new "hello") Sample.testmail)
     = Return (false, l ++ "Could not send email: timed out" ++ nl,
               Sample.testmail)) /\
  (exists response,
     snd (send_mail_worker Sample.healthy Sample.relay (MIMEText_new "hello")
            Sample.testmail)
     = Return (true, success_log true "bot" response, Sample.testmail)) /\
  snd (send_mail_worker Edge.stalled_quit Sample.localhost
         (MIMEText_new "hello") Sample.testmail)
  = Raise (SMTPException "Connection unexpectedly closed: timed out").
Proof.
  split; [| split].
  - refine (proj2 (proj1 (timeout_and_success_outcomes Sample.silent
                            Sample.localhost (MIMEText_new "hello")
                            Sample.testmail)
                     (Connect false "localhost" 25 30) "timed out" _ eq_refl)).
    cbn. tauto.
  - destruct (proj1 (proj2 (timeout_and_success_outcomes Sample.healthy
                              Sample.relay (MIMEText_new "hello")
                              Sample.testmail))
                "mail.example.org" 587%Z true "bot" "secret"
                eq_refl eq_refl eq_refl eq_refl (fun _ => eq_refl))
      as [response [_ [Hrun _]]].
    + intros c Hin. cbn in Hin.
      repeat (destruct Hin as [<- | Hin]; [reflexivity |]). contradiction.
    + exists response. exact Hrun.
  - refine (proj2 (proj2 (proj2 (timeout_and_success_outcomes
                                   Edge.stalled_quit Sample.localhost
                                   (MIMEText_new "hello") Sample.testmail))
                     Quit _ _ eq_refl)).
    cbn. tauto.
Defined.

(** C7 as the specification states it fails on the success log: the send
    of the sample request to the default account succeeds after the calls
    connect, submit and quit, and its log has a line for the submission
    only, none for the connection.  It fails on timeouts too: when the
    reply to [quit] does not arrive in time, the library raises its
    SMTPServerDisconnected, which the worker does not catch. *)
Lemma success_log_misses_connection :
  send_mail_worker Sample.healthy Sample.localhost (MIMEText_new "hello")
    Sample.testmail
  = ([Connect false "localhost" 25 30; SendMessage (MIMEText_new "hello");
      Quit],
     Return (true,
             "No username, trying anonymous access" ++ nl
             ++ "Sending Mail" ++ nl ++ "Server response:{}",
             Sample.testmail)) /\
  ~ records_every_step
      [Connect false "localhost" 25 30; SendMessage (MIMEText_new "hello");
       Quit]
      ("No username, trying anonymous access" ++ nl
       ++ "Sending Mail" ++ nl ++ "Server response:{}") /\
  send_mail_worker Edge.stalled_quit Sample.localhost (MIMEText_new "hello")
    Sample.testmail
  = ([Connect false "localhost" 25 30; SendMessage (MIMEText_new "hello");
      Quit],
     Raise (SMTPException "Connection unexpectedly closed: timed out")).
Proof.
  split; [reflexivity | split; [| reflexivity]].
  intros Hall.
  destruct (Hall (Connect false "localhost" 25 30) (or_introl eq_refl))
    as [line [Hline _]].
  discriminate.
Qed.

(** ** The code on the sample data *)

(** The end-to-end scenario of the specification: the test mail to the
    default account is handed to the worker pool once, with the sender
    rendered from the account's template. *)
Example testmail_is_submitted :
  dispatch Renderer.render Sample.as_string Sample.os_ok "h" Sample.config
    Sample.testmail
  = ([Log [LStr "MimeMail:";
           LMime {| payload := "Hello dear test mail receiver!";
                    headers := [("Subject", "Testmail");
                                ("From", "bot@localhost");
                                ("To", "root@localhost")] |}]
        verbose false;
      Log [LStr "Sending mail to"; LStr "root@localhost"] info false;
      FireEvent
        {| task_config := Sample.localhost;
           task_mail := {| payload := "Hello dear test mail receiver!";
                           headers := [("Subject", "Testmail");
                                       ("From", "bot@localhost");
                                       ("To", "root@localhost")] |};
           task_event := Sample.testmail |}
        "mail-transmit-workers"],
     Return tt).
Proof. reflexivity. Qed.

(** Why the statements below ask for the keys the code reads: an account
    dict that lacks one makes the code raise a KeyError, as the schema's
    default account does when its missing keys are not filled in. *)
Example missing_key_raises :
  snd (dispatch Renderer.render Sample.as_string Sample.os_ok "h"
         (Sample.config_of true "localhost" [Sample.schema_default])
         Sample.testmail)
  = Raise (KeyError "use_sendmail") /\
  snd (send_mail_worker Sample.healthy Sample.schema_default
         (MIMEText_new "hello") Sample.testmail)
  = Raise (KeyError "tls").
Proof. split; reflexivity. Qed.

(** ** Account resolution *)

Lemma filter_name_first n before a after :
  (forall b, In b before -> exists m, name b = Some m /\ m <> n) ->
  name a = Some n ->
  (forall b, In b after -> name b <> None) ->
  exists later, filter_name n (before ++ a :: after) = Return (a :: later).
Proof.
  intros Hbefore Ha Hafter.
  assert (Htail : exists r, filter_name n after = Return r).
  { clear Hbefore Ha. induction after as [|b after IH]; cbn.
    - now eexists.
    - destruct (name b) as [m|] eqn:Eb.
      + destruct IH as [r ->];
          [intros c Hc; apply Hafter; now right | now eexists].
      + exfalso. apply (Hafter b); [now left | exact Eb]. }
  destruct Htail as [r Hr].
  induction before as [|b before IH]; cbn.
  - rewrite Ha, Hr, String.eqb_refl. now eexists.
  - destruct (Hbefore b (or_introl eq_refl)) as [m [-> Hm]].
    destruct IH as [later ->]; [intros c Hc; apply Hbefore; now right |].
    apply String.eqb_neq in Hm. rewrite Hm. now eexists.
Qed.

Lemma filter_name_head n registry a later :
  filter_name n registry = Return (a :: later) ->
  first_named n registry a.
Proof.
  revert a later. induction registry as [|b registry IH]; cbn; intros a later.
  - discriminate.
  - destruct (name b) as [m|] eqn:Eb; [| discriminate].
    destruct (filter_name n registry) as [r|e] eqn:Er; [| discriminate].
    destruct (String.eqb_spec m n) as [-> | Hm]; intros H.
    + injection H as <- _. exists [], registry. now repeat split.
    + injection H as ->.
      destruct (IH a later eq_refl) as [before [after [-> [Ha Hbefore]]]].
      exists (b :: before), after. repeat split; [exact Ha |].
      intros c [<- | Hc]; [congruence | now apply Hbefore].
Qed.

Lemma filter_name_unknown n registry :
  (forall a, In a registry -> name a <> Some n) ->
  filter_name n registry = Return [] \/
  filter_name n registry = Raise (KeyError "name").
Proof.
  induction registry as [|b registry IH]; cbn; intros Hnone.
  - now left.
  - destruct (name b) as [m|] eqn:Eb; [| now right].
    destruct IH as [-> | ->]; [intros c Hc; apply Hnone; now right | | now right].
    destruct (String.eqb_spec m n) as [-> | _]; [| now left].
    exfalso. apply (Hnone b); [now left | exact Eb].
Qed.

Lemma filter_name_named n registry :
  (forall a, In a registry -> name a <> None) ->
  exists r, filter_name n registry = Return r.
Proof.
  induction registry as [|b registry IH]; cbn; intros Hnamed.
  - now eexists.
  - destruct (name b) as [m|] eqn:Eb.
    + destruct IH as [r ->];
        [intros c Hc; apply Hnamed; now right | now eexists].
    + exfalso. apply (Hnamed b); [now left | exact Eb].
Qed.

(** A trace of log lines only uses no backend. *)
Lemma only_logs (trace : list effect) :
  (forall e, In e trace ->
             is_run_process e = false /\ is_fire_event e = false) ->
  delegated_runs trace = [] /\
  filter is_fire_event trace = [] /\
  submitted trace = [].
Proof.
  unfold delegated_runs, submitted.
  induction trace as [|e trace IH]; cbn; intros Hlogs; [now repeat split |].
  destruct (Hlogs e (or_introl eq_refl)) as [Hrun Hfire].
  destruct IH as [-> [-> ->]]; [intros e' He'; apply Hlogs; now right |].
  rewrite Hrun, Hfire. destruct e; try discriminate; now repeat split.
Qed.

(** ** The dispatcher *)

Section Dispatch.

Variable render : string -> list (string * string) -> string.
Variable as_string : MIMEText -> string.
Variable os : string -> list string -> string -> process_end.
Variable hostname : string.

Section Resolved.

Variables (config : Config) (event : send_mail_event) (a : Account)
  (template host : string).
Hypothesis resolved : resolves_to config event a.
Hypothesis has_mail_from : mail_from a = Some template.
Hypothesis has_server : server a = Some host.

Local Abbreviation mime_mail :=
  (built_mail render hostname event template host).

Ltac run_resolved :=
  unfold_dispatch;
  destruct resolved as [later ->]; rewrite has_mail_from, has_server.

Lemma dispatch_gated :
  mail_send config = false ->
  dispatch render as_string os hostname config event
  = ([Log [LStr "MimeMail:"; LMime mime_mail] verbose false;
      Log [LStr "Not sending mail, here it is for debugging info:";
           LMime mime_mail] info true],
     Return tt).
Proof.
  intros Hgate. run_resolved. rewrite Hgate. reflexivity.
Qed.

Lemma dispatch_direct :
  mail_send config = true ->
  use_sendmail a = Some false ->
  dispatch render as_string os hostname config event
  = ([Log [LStr "MimeMail:"; LMime mime_mail] verbose false;
      Log [LStr "Sending mail to"; LStr (to_address event)] info false;
      FireEvent {| task_config := a; task_mail := mime_mail;
                   task_event := event |} "mail-transmit-workers"],
     Return tt).
Proof.
  intros Hgate Hdirect. run_resolved. rewrite Hgate, Hdirect. reflexivity.
Qed.

Lemma dispatch_delegated binary arguments :
  mail_send config = true ->
  use_sendmail a = Some true ->
  sendmail_binary a = Some binary ->
  sendmail_extra_arguments a = Some arguments ->
  dispatch render as_string os hostname config event
  = ([Log [LStr "MimeMail:"; LMime mime_mail] verbose false;
      Log [LStr "Sending mail to"; LStr (to_address event)] info false;
      Log [LStr "Would now task sendmail to send the mail"] info false;
      RunProcess "" (binary :: split arguments " ") (as_string mime_mail)
        (run_process os "" (binary :: split arguments " ")
           (as_string mime_mail))],
     Return tt).
Proof.
  intros Hgate Hdelegate Hbinary Harguments. run_resolved.
  rewrite Hgate, Hdelegate, Hbinary, Harguments. reflexivity.
Qed.

End Resolved.

(** C1, as it holds: when no account of the registry has the resolved
    name, the dispatcher does nothing before it fails: the trace is empty,
    so nothing is logged (no error either), no backend is used and no
    DeliveryOutcome follows.  The failure is the IndexError of taking the
    head of an empty list (or the KeyError of an account without a name),
    and it leaves [send_mail] as an exception. *)
Theorem unknown_account_raises config event :
  (forall a, In a (accounts config) ->
             name a <> Some (account_name config event)) ->
  fst (dispatch render as_string os hostname config event) = [] /\
  (snd (dispatch render as_string os hostname config event) = Raise IndexError
   \/ snd (dispatch render as_string os hostname config event)
      = Raise (KeyError "name")) /\
  ((forall a, In a (accounts config) -> name a <> None) ->
   snd (dispatch render as_string os hostname config event)
   = Raise IndexError) /\
  logged_error (fst (dispatch render as_string os hostname config event))
  = false /\
  (forall W,
      delivered W (fst (dispatch render as_string os hostname config event))
      = []) /\
  ~ returns_normally (snd (dispatch render as_string os hostname config event)).
Proof.
  intros Hunknown.
  assert (Hrun :
    dispatch render as_string os hostname config event = ([], Raise IndexError)
    \/ (dispatch render as_string os hostname config event
        = ([], Raise (KeyError "name")) /\
        exists a, In a (accounts config) /\ name a = None)).
  { unfold_dispatch.
    destruct (filter_name_unknown _ _ Hunknown) as [E | E]; rewrite E.
    - now left.
    - right. split; [reflexivity |].
      clear Hunknown. revert E.
      induction (accounts config) as [|b registry IH]; cbn; [discriminate |].
      destruct (name b) as [m|] eqn:Eb.
      + destruct (filter_name (account_name config event) registry) as [r|e];
          [discriminate |].
        intros E. destruct (IH E) as [a [Hin Ha]]. exists a. now split; [right |].
      + intros _. exists b. now split; [left |]. }
  destruct Hrun as [-> | [-> [a [Hin Ha]]]]; cbn [fst snd];
    (split; [reflexivity |]).
  - split; [now left |]. split; [reflexivity |].
    split; [reflexivity | split; [reflexivity | discriminate]].
  - split; [now right |]. split; [intros Hnamed; now destruct (Hnamed a Hin) |].
    split; [reflexivity | split; [reflexivity | discriminate]].
Qed.

(** C4: while [mail_send] is false the dispatcher uses no backend,
    whatever the registry holds: it runs no process, submits no task, and
    no DeliveryOutcome follows.  When the request resolves to an account
    (with its template and server), the dispatcher logs the message it
    built, once verbosely and once for inspection, and returns. *)
Theorem send_gate_closed config event :
  mail_send config = false ->
  delegated_runs (fst (dispatch render as_string os hostname config event))
  = [] /\
  filter is_fire_event
    (fst (dispatch render as_string os hostname config event)) = [] /\
  (forall W,
      delivered W (fst (dispatch render as_string os hostname config event))
      = []) /\
  (forall a template host,
      resolves_to config event a ->
      mail_from a = Some template ->
      server a = Some host ->
      dispatch render as_string os hostname config event
      = ([Log [LStr "MimeMail:";
               LMime (built_mail render hostname event template host)]
            verbose false;
          Log [LStr "Not sending mail, here it is for debugging info:";
               LMime (built_mail render hostname event template host)]
            info true],
         Return tt)).
Proof.
  intros Hgate.
  assert (Hlogs :
    forall e, In e (fst (dispatch render as_string os hostname config event)) ->
              is_run_process e = false /\ is_fire_event e = false).
  { unfold_dispatch. rewrite Hgate.
    destruct (filter_name _ _) as [[|a later]|e']; cbn; try contradiction.
    destruct (mail_from a); cbn; try contradiction.
    destruct (server a); cbn; try contradiction.
    intros e [<- | [<- | []]]; now split. }
  destruct (only_logs _ Hlogs) as [Hruns [Hfired Hsubmitted]].
  split; [exact Hruns | split; [exact Hfired | split]].
  - intros W. unfold delivered. now rewrite Hsubmitted.
  - intros a template host Hres Hfrom Hserver.
    exact (dispatch_gated config event a template host Hres Hfrom Hserver
             Hgate).
Qed.

(** C5, as it holds: with [mail_send] true and the request resolved to an
    account, the account's [use_sendmail] selects the one backend used.
    When it is true, the dispatcher runs the delegated command itself, once,
    the pair the command returned is there before the dispatcher returns,
    and no task is submitted, so no DeliveryOutcome follows.  When it is
    false, the dispatcher runs no process and does nothing but log and
    submit one task with the account, the message and the request to the
    worker pool; the DeliveryOutcome the worker returns for it reaches the
    Result Reporter once, and when the worker raises there is none. *)
Theorem backend_selection config event a template host W :
  mail_send config = true ->
  resolves_to config event a ->
  mail_from a = Some template ->
  server a = Some host ->
  (forall binary arguments,
      use_sendmail a = Some true ->
      sendmail_binary a = Some binary ->
      sendmail_extra_arguments a = Some arguments ->
      snd (dispatch render as_string os hostname config event) = Return tt /\
      delegated_runs (fst (dispatch render as_string os hostname config event))
      = [RunProcess "" (binary :: split arguments " ")
           (as_string (built_mail render hostname event template host))
           (run_process os "" (binary :: split arguments " ")
              (as_string (built_mail render hostname event template host)))]
      /\
      filter is_fire_event
        (fst (dispatch render as_string os hostname config event)) = [] /\
      delivered W (fst (dispatch render as_string os hostname config event))
      = []) /\
  (use_sendmail a = Some false ->
   dispatch render as_string os hostname config event
   = ([Log [LStr "MimeMail:";
            LMime (built_mail render hostname event template host)]
         verbose false;
       Log [LStr "Sending mail to"; LStr (to_address event)] info false;
       FireEvent
         {| task_config := a;
            task_mail := built_mail render hostname event template host;
            task_event := event |} "mail-transmit-workers"],
      Return tt) /\
   delegated_runs (fst (dispatch render as_string os hostname config event))
   = [] /\
   delivered W (fst (dispatch render as_string os hostname config event))
   = match snd (send_mail_worker W a
                  (built_mail render hostname event template host) event) with
     | Return outcome => [outcome]
     | Raise _ => []
     end /\
   length (reported W
             (fst (dispatch render as_string os hostname config event)))
   = length (delivered W
               (fst (dispatch render as_string os hostname config event)))).
Proof.
  intros Hgate Hres Hfrom Hserver. split.
  - intros binary arguments Hdelegate Hbinary Harguments.
    rewrite (dispatch_delegated config event a template host Hres Hfrom
               Hserver binary arguments Hgate Hdelegate Hbinary Harguments).
    now repeat split.
  - intros Hdirect.
    rewrite (dispatch_direct config event a template host Hres Hfrom Hserver
               Hgate Hdirect).
    split; [reflexivity | split; [reflexivity |]].
    unfold reported, delivered, submitted, task_outcome. cbn.
    rewrite !app_nil_r. split; [reflexivity |].
    destruct (snd (send_mail_worker W a _ event)) as [[[[] l] e] | e];
      reflexivity.
Qed.

(** C8, as it holds: with [mail_send] true and a resolved account whose
    [use_sendmail] is set, the dispatcher runs the account's binary with
    the argument string split at every single space character (so two
    spaces in a row give an empty argument and other white space does not
    separate), feeds it the message as text on its standard input, and
    the success it gets is whether the process exited with status 0. *)
Theorem delegated_command config event a template host binary arguments :
  mail_send config = true ->
  resolves_to config event a ->
  mail_from a = Some template ->
  server a = Some host ->
  use_sendmail a = Some true ->
  sendmail_binary a = Some binary ->
  sendmail_extra_arguments a = Some arguments ->
  dispatch render as_string os hostname config event
  = ([Log [LStr "MimeMail:";
           LMime (built_mail render hostname event template host)]
        verbose false;
      Log [LStr "Sending mail to"; LStr (to_address event)] info false;
      Log [LStr "Would now task sendmail to send the mail"] info false;
      RunProcess "" (binary :: split arguments " ")
        (as_string (built_mail render hostname event template host))
        (run_process os "" (binary :: split arguments " ")
           (as_string (built_mail render hostname event template host)))],
     Return tt) /\
  argvs (fst (dispatch render as_string os hostname config event))
  = [binary :: split arguments " "] /\
  (forall status output,
      os "" (binary :: split arguments " ")
        (as_string (built_mail render hostname event template host))
      = Exited status output ->
      run_process os "" (binary :: split arguments " ")
        (as_string (built_mail render hostname event template host))
      = ((status =? 0)%Z, output)) /\
  (forall reason,
      os "" (binary :: split arguments " ")
        (as_string (built_mail render hostname event template host))
      = NotStarted reason ->
      run_process os "" (binary :: split arguments " ")
        (as_string (built_mail render hostname event template host))
      = (false, reason)).
Proof.
  intros Hgate Hres Hfrom Hserver Hdelegate Hbinary Harguments.
  rewrite (dispatch_delegated config event a template host Hres Hfrom
             Hserver binary arguments Hgate Hdelegate Hbinary Harguments).
  split; [reflexivity | split; [reflexivity | split]].
  - intros status output E. unfold run_process. now rewrite E.
  - intros reason E. unfold run_process. now rewrite E.
Qed.

(** C10: when several accounts of the registry have the resolved name,
    the dispatcher works with the first of them in registry order: that
    account is what its lookup returns; the sender is rendered from that
    account's template and server; and the message is logged, handed to
    the worker pool with that account, or sent through that account's
    binary and arguments, as the account and [mail_send] say.  The
    dispatcher does exactly what it does when that account is the whole
    registry, so what follows it (other accounts of the same name
    included) changes nothing. *)
Theorem first_match_is_used config event before a after :
  accounts config = (before ++ a :: after)%list ->
  name a = Some (account_name config event) ->
  (forall b, In b before ->
             exists m, name b = Some m /\ m <> account_name config event) ->
  (forall b, In b after -> name b <> None) ->
  resolves_to config event a /\
  dispatch render as_string os hostname config event
  = dispatch render as_string os hostname (with_accounts config [a]) event /\
  (forall trace : list effect,
      lookup_account config event trace = (trace, Return a)) /\
  (forall template host,
      mail_from a = Some template ->
      server a = Some host ->
      (mail_send config = false ->
       dispatch render as_string os hostname config event
       = ([Log [LStr "MimeMail:";
                LMime (built_mail render hostname event template host)]
             verbose false;
           Log [LStr "Not sending mail, here it is for debugging info:";
                LMime (built_mail render hostname event template host)]
             info true],
          Return tt)) /\
      (mail_send config = true ->
       use_sendmail a = Some false ->
       dispatch render as_string os hostname config event
       = ([Log [LStr "MimeMail:";
                LMime (built_mail render hostname event template host)]
             verbose false;
           Log [LStr "Sending mail to"; LStr (to_address event)] info false;
           FireEvent
             {| task_config := a;
                task_mail := built_mail render hostname event template host;
                task_event := event |} "mail-transmit-workers"],
          Return tt)) /\
      (forall binary arguments,
          mail_send config = true ->
          use_sendmail a = Some true ->
          sendmail_binary a = Some binary ->
          sendmail_extra_arguments a = Some arguments ->
          dispatch render as_string os hostname config event
          = ([Log [LStr "MimeMail:";
                   LMime (built_mail render hostname event template host)]
                verbose false;
              Log [LStr "Sending mail to"; LStr (to_address event)]
                info false;
              Log [LStr "Would now task sendmail to send the mail"]
                info false;
              RunProcess "" (binary :: split arguments " ")
                (as_string (built_mail render hostname event template host))
                (run_process os "" (binary :: split arguments " ")
                   (as_string
                      (built_mail render hostname event template host)))],
             Return tt))).
Proof.
  intros Hregistry Ha Hbefore Hafter.
  destruct (filter_name_first _ before a after Hbefore Ha Hafter)
    as [later Hfilter].
  rewrite <- Hregistry in Hfilter.
  assert (Hres : resolves_to config event a) by (now exists later).
  split; [exact Hres | split; [| split]].
  - unfold_dispatch. rewrite Hfilter.
    change (account_name (with_accounts config [a]) event)
      with (account_name config event).
    cbn [accounts with_accounts filter_name]. rewrite Ha, String.eqb_refl.
    reflexivity.
  - intros trace. unfold lookup_account, bind, lift, index0, ret.
    now rewrite Hfilter.
  - intros template host Hfrom Hserver. split; [| split].
    + exact (dispatch_gated config event a template host Hres Hfrom Hserver).
    + exact (dispatch_direct config event a template host Hres Hfrom
               Hserver).
    + intros binary arguments.
      exact (dispatch_delegated config event a template host Hres Hfrom
               Hserver binary arguments).
Qed.

End Dispatch.

(** C9: the selector "default" resolves to the configured
    [default_account] and any other selector to itself; the account used
    is the first one of the registry whose name is exactly the resolved
    name, and it is what the dispatcher's lookup returns.  With another
    [default_account] the selector "default" resolves to that name's
    account. *)
Theorem default_selector_resolution config event :
  (account event = "default" ->
   account_name config event = default_account config) /\
  (account event <> "default" ->
   account_name config event = account event) /\
  (forall a,
      resolves_to config event a ->
      first_named (account_name config event) (accounts config) a /\
      forall trace : list effect,
        lookup_account config event trace = (trace, Return a)) /\
  (forall a,
      (forall b, In b (accounts config) -> name b <> None) ->
      first_named (account_name config event) (accounts config) a ->
      resolves_to config event a) /\
  (forall n,
      account event = "default" ->
      account_name (with_default config n) event = n /\
      forall a,
        resolves_to (with_default config n) event a ->
        first_named n (accounts config) a).
Proof.
  split; [| split; [| split; [| split]]].
  - intros E. unfold account_name. now rewrite E.
  - intros E. unfold account_name. apply String.eqb_neq in E. now rewrite E.
  - intros a [later Hfilter]. split.
    + exact (filter_name_head _ _ _ _ Hfilter).
    + intros trace. unfold lookup_account, bind, lift, index0, ret.
      now rewrite Hfilter.
  - intros a Hnamed [before [after [Hregistry [Ha Hbefore]]]].
    unfold resolves_to. rewrite Hregistry. apply filter_name_first.
    + intros b Hb.
      assert (Hin : In b (accounts config))
        by (rewrite Hregistry; apply in_or_app; now left).
      destruct (name b) as [m|] eqn:Eb; [| now destruct (Hnamed b Hin)].
      exists m. split; [reflexivity |].
      intros ->. apply (Hbefore b Hb). exact Eb.
    + exact Ha.
    + intros b Hb. apply Hnamed. rewrite Hregistry.
      apply in_or_app; right; now right.
  - intros n E.
    assert (Hname : account_name (with_default config n) event = n)
      by (unfold account_name; now rewrite E).
    split; [exact Hname |].
    intros a [later Hfilter]. rewrite Hname in Hfilter.
    exact (filter_name_head _ _ _ _ Hfilter).
Qed.

Lemma unknown_account_raises_witness :
  dispatch Renderer.render Sample.as_string Sample.os_ok "h" Sample.config
    (Sample.request "nosuch")
  = ([], Raise IndexError).
Proof.
  pose proof (unknown_account_raises Renderer.render Sample.as_string
                Sample.os_ok "h" Sample.config (Sample.request "nosuch"))
    as H.
  destruct H as [Htrace [_ [Hindex _]]].
  - intros a [<- | []]. discriminate.
  - apply injective_projections; [exact Htrace |].
    apply Hindex. intros a [<- | []]. discriminate.
Defined.

(** C1 as the specification states it fails: the request names an account
    that the default registry does not hold; the dispatcher logs nothing,
    so no error either, and the IndexError leaves it. *)
Lemma unknown_account_not_logged :
  dispatch Renderer.render Sample.as_string Sample.os_ok "h" Sample.config
    (Sample.request "nosuch")
  = ([], Raise IndexError) /\
  logged_error
    (fst (dispatch Renderer.render Sample.as_string Sample.os_ok "h"
            Sample.config (Sample.request "nosuch"))) = false /\
  ~ returns_normally
      (snd (dispatch Renderer.render Sample.as_string Sample.os_ok "h"
              Sample.config (Sample.request "nosuch"))).
Proof.
  split; [reflexivity | split; [reflexivity | discriminate]].
Qed.

Lemma send_gate_closed_witness :
  delegated_runs
    (fst (dispatch Renderer.render Sample.as_string Sample.os_ok "h"
            (Sample.config_of false "local" [Sample.local "-t -oi"])
            Sample.testmail)) = [] /\
  snd (dispatch Renderer.render Sample.as_string Sample.os_ok "h"
         (Sample.config_of false "local" [Sample.local "-t -oi"])
         Sample.testmail) = Return tt.
Proof.
  pose proof (send_gate_closed Renderer.render Sample.as_string Sample.os_ok
                "h" (Sample.config_of false "local" [Sample.local "-t -oi"])
                Sample.testmail eq_refl) as H.
  destruct H as [Hruns [_ [_ Hlogged]]].
  split; [exact Hruns |].
  rewrite (Hlogged (Sample.local "-t -oi") "bot@{{hostname}}" "localhost"
             (ex_intro _ [] eq_refl) eq_refl eq_refl).
  reflexivity.
Defined.

Lemma backend_selection_witness :
  delivered Sample.healthy
    (fst (dispatch Renderer.render Sample.as_string Sample.os_ok "h"
            Sample.config Sample.testmail))
  = [(true,
      "No username, trying anonymous access" ++ nl ++ "Sending Mail" ++ nl
      ++ "Server response:{}",
      Sample.testmail)] /\
  delivered Sample.healthy
    (fst (dispatch Renderer.render Sample.as_string Sample.os_ok "h"
            (Sample.config_of true "local" [Sample.local "-t -oi"])
            Sample.testmail))
  = [].
Proof.
  split.
  - destruct (proj2 (backend_selection Renderer.render Sample.as_string
                       Sample.os_ok "h" Sample.config Sample.testmail
                       Sample.localhost "bot@{{server}}" "localhost"
                       Sample.healthy eq_refl (ex_intro _ [] eq_refl)
                       eq_refl eq_refl) eq_refl) as [_ [_ [Hdelivered _]]].
    exact Hdelivered.
  - destruct (proj1 (backend_selection Renderer.render Sample.as_string
                       Sample.os_ok "h"
                       (Sample.config_of true "local" [Sample.local "-t -oi"])
                       Sample.testmail (Sample.local "-t -oi")
                       "bot@{{hostname}}" "localhost" Sample.healthy eq_refl
                       (ex_intro _ [] eq_refl) eq_refl eq_refl)
                "/usr/bin/sendmail" "-t -oi" eq_refl eq_refl eq_refl)
      as [_ [_ [_ Hdelivered]]].
    exact Hdelivered.
Defined.

(** C5 as the specification states it fails on the last part: the request
    goes to an account that sends directly, one task is submitted, the
    server refuses the credentials, the worker raises, and no
    DeliveryOutcome reaches the Result Reporter. *)
Lemma no_outcome_when_worker_raises :
  mail_send (Sample.config_of true "relay" [Sample.relay]) = true /\
  resolves_to (Sample.config_of true "relay" [Sample.relay]) Sample.testmail
    Sample.relay /\
  use_sendmail Sample.relay = Some false /\
  length
    (submitted
       (fst (dispatch Renderer.render Sample.as_string Sample.os_ok "h"
               (Sample.config_of true "relay" [Sample.relay])
               Sample.testmail))) = 1 /\
  length
    (delivered Sample.rejecting
       (fst (dispatch Renderer.render Sample.as_string Sample.os_ok "h"
               (Sample.config_of true "relay" [Sample.relay])
               Sample.testmail))) <> 1.
Proof.
  split; [reflexivity | split; [now exists [] | split; [reflexivity |]]].
  split; [reflexivity | discriminate].
Qed.

Lemma delegated_command_witness :
  argvs
    (fst (dispatch Renderer.render Sample.as_string Sample.os_ok "h"
            (Sample.config_of true "local" [Sample.local "-t -oi"])
            Sample.testmail))
  = [["/usr/bin/sendmail"; "-t"; "-oi"]].
Proof.
  exact (proj1 (proj2
    (delegated_command Renderer.render Sample.as_string Sample.os_ok "h"
       (Sample.config_of true "local" [Sample.local "-t -oi"])
       Sample.testmail (Sample.local "-t -oi") "bot@{{hostname}}" "localhost"
       "/usr/bin/sendmail" "-t -oi" eq_refl (ex_intro _ [] eq_refl) eq_refl
       eq_refl eq_refl eq_refl eq_refl))).
Defined.

(** C8 as the specification states it fails on the argument list: with a
    tab between the two arguments the command gets them as one argument,
    and with two spaces it gets an empty argument between them, where
    splitting on white space gives the two arguments. *)
Lemma arguments_split_at_single_spaces :
  argvs
    (fst (dispatch Renderer.render Sample.as_string Sample.os_ok "h"
            (Sample.config_of true "local"
               [Sample.local ("-t" ++ Sample.tab ++ "-oi")])
            Sample.testmail))
  = [["/usr/bin/sendmail"; "-t" ++ Sample.tab ++ "-oi"]] /\
  spec_argv "/usr/bin/sendmail" ("-t" ++ Sample.tab ++ "-oi")
  = ["/usr/bin/sendmail"; "-t"; "-oi"] /\
  argvs
    (fst (dispatch Renderer.render Sample.as_string Sample.os_ok "h"
            (Sample.config_of true "local" [Sample.local "-t  -oi"])
            Sample.testmail))
  = [["/usr/bin/sendmail"; "-t"; ""; "-oi"]] /\
  spec_argv "/usr/bin/sendmail" "-t  -oi"
  = ["/usr/bin/sendmail"; "-t"; "-oi"].
Proof.
  repeat split.
Qed.

Lemma first_match_is_used_witness :
  dispatch Renderer.render Sample.as_string Sample.os_ok "h"
    (Sample.config_of true "local"
       [Sample.relay; Sample.local "-t -oi"; Sample.local "-x"])
    Sample.testmail
  = dispatch Renderer.render Sample.as_string Sample.os_ok "h"
      (Sample.config_of true "local" [Sample.local "-t -oi"])
      Sample.testmail /\
  argvs
    (fst (dispatch Renderer.render Sample.as_string Sample.os_ok "h"
            (Sample.config_of true "local"
               [Sample.relay; Sample.local "-t -oi"; Sample.local "-x"])
            Sample.testmail))
  = [["/usr/bin/sendmail"; "-t"; "-oi"]].
Proof.
  pose proof (first_match_is_used Renderer.render Sample.as_string
                Sample.os_ok "h"
                (Sample.config_of true "local"
                   [Sample.relay; Sample.local "-t -oi"; Sample.local "-x"])
                Sample.testmail [Sample.relay] (Sample.local "-t -oi")
                [Sample.local "-x"] eq_refl eq_refl) as H.
  destruct H as [_ [Hsame [_ Htrace]]].
  - intros b [<- | []]. exists "relay". split; [reflexivity | discriminate].
  - intros b [<- | []]. discriminate.
  - split; [exact Hsame |].
    destruct (Htrace "bot@{{hostname}}" "localhost" eq_refl eq_refl)
      as [_ [_ Hdelegated]].
    rewrite (Hdelegated "/usr/bin/sendmail" "-t -oi" eq_refl eq_refl
               eq_refl eq_refl).
    reflexivity.
Defined.

Lemma default_selector_resolution_witness :
  account_name (with_default Sample.config "relay") Sample.testmail = "relay"
  /\
  first_named "localhost" (accounts Sample.config) Sample.localhost.
Proof.
  split.
  - exact (proj1 (proj2 (proj2 (proj2 (proj2
             (default_selector_resolution Sample.config Sample.testmail))))
             "relay" eq_refl)).
  - exact (proj1 (proj1 (proj2 (proj2
             (default_selector_resolution Sample.config Sample.testmail)))
             Sample.localhost (ex_intro _ [] eq_refl))).
Defined.

(** ** The Address Renderer *)

Module RendererFacts.
Import Renderer.

Lemma append_char (acc : string) (c : ascii) (s : string) :
  (acc ++ String c EmptyString) ++ s = acc ++ String c s.
Proof.
  now rewrite append_assoc.
Qed.

Lemma append_empty (s : string) : s ++ "" = s.
Proof.
  induction s as [|c s IH]; cbn; [reflexivity | now rewrite IH].
Qed.

(** Text without an opening brace is read as literal text. *)
Lemma scan_literal (text rest acc : string) :
  free_of (fun c => Ascii.eqb c "{") text = true ->
  scan false acc (text ++ rest) = scan false (acc ++ text) rest.
Proof.
  revert acc. induction text as [|c text IH]; intros acc Hfree.
  - now rewrite append_empty.
  - cbn in Hfree. apply andb_prop in Hfree. destruct Hfree as [Hc Hfree].
    apply negb_true_iff in Hc.
    cbn [append scan]. rewrite Hc, (IH _ Hfree), append_char. reflexivity.
Qed.

(** A name without a closing brace is read as a name. *)
Lemma scan_key (key rest acc : string) :
  free_of (fun c => Ascii.eqb c "}") key = true ->
  scan true acc (key ++ rest) = scan true (acc ++ key) rest.
Proof.
  revert acc. induction key as [|c key IH]; intros acc Hfree.
  - now rewrite append_empty.
  - cbn in Hfree. apply andb_prop in Hfree. destruct Hfree as [Hc Hfree].
    apply negb_true_iff in Hc.
    cbn [append scan]. rewrite Hc, (IH _ Hfree), append_char. reflexivity.
Qed.

Lemma render_placeholder (before key after : string)
    (vars : list (string * string)) :
  free_of (fun c => Ascii.eqb c "{") before = true ->
  free_of (fun c => Ascii.eqb c "}") key = true ->
  render (before ++ "{{" ++ key ++ "}}" ++ after) vars
  = before ++ expand vars (Placeholder key) ++ render after vars.
Proof.
  intros Hbefore Hkey. unfold render.
  rewrite (scan_literal _ _ _ Hbefore).
  change (scan false ("" ++ before) ("{{" ++ key ++ "}}" ++ after))
    with (Literal before :: scan true "" (key ++ "}}" ++ after)).
  rewrite (scan_key _ _ _ Hkey).
  reflexivity.
Qed.

End RendererFacts.

(** C3: the Address Renderer is a function of the template and the
    variables, so equal inputs give equal outputs; a placeholder whose
    name is among the variables, [server] and [hostname] in particular, is
    replaced by its value; a placeholder whose name is not among them
    stays in the output as it is written; and the template of the default
    account renders to bot@mail.example.org for that server. *)
Theorem renderer_substitutes_known_placeholders :
  (forall template vars out1 out2,
      out1 = Renderer.render template vars ->
      out2 = Renderer.render template vars ->
      out1 = out2) /\
  (forall before key after vars value,
      Renderer.free_of (fun c => Ascii.eqb c "{") before = true ->
      Renderer.free_of (fun c => Ascii.eqb c "}") key = true ->
      Renderer.lookup key vars = Some value ->
      Renderer.render (before ++ "{{" ++ key ++ "}}" ++ after) vars
      = before ++ value ++ Renderer.render after vars) /\
  (forall before after host hostname,
      Renderer.free_of (fun c => Ascii.eqb c "{") before = true ->
      Renderer.render (before ++ "{{server}}" ++ after)
        [("server", host); ("hostname", hostname)]
      = before ++ host
        ++ Renderer.render after [("server", host); ("hostname", hostname)]
      /\
      Renderer.render (before ++ "{{hostname}}" ++ after)
        [("server", host); ("hostname", hostname)]
      = before ++ hostname
        ++ Renderer.render after [("server", host); ("hostname", hostname)])
  /\
  (forall before key after vars,
      Renderer.free_of (fun c => Ascii.eqb c "{") before = true ->
      Renderer.free_of (fun c => Ascii.eqb c "}") key = true ->
      Renderer.lookup key vars = None ->
      Renderer.render (before ++ "{{" ++ key ++ "}}" ++ after) vars
      = before ++ "{{" ++ key ++ "}}" ++ Renderer.render after vars) /\
  Renderer.render "bot@{{server}}"
    [("server", "mail.example.org"); ("hostname", "h")]
  = "bot@mail.example.org".
Proof.
  split; [| split; [| split; [| split]]].
  - intros template vars out1 out2 -> ->. reflexivity.
  - intros before key after vars value Hbefore Hkey Hvalue.
    rewrite (RendererFacts.render_placeholder before key after vars
               Hbefore Hkey).
    cbn [Renderer.expand]. now rewrite Hvalue.
  - intros before after host hostname Hbefore. split.
    + exact (RendererFacts.render_placeholder before "server" after _
               Hbefore eq_refl).
    + exact (RendererFacts.render_placeholder before "hostname" after _
               Hbefore eq_refl).
  - intros before key after vars Hbefore Hkey Hunknown.
    rewrite (RendererFacts.render_placeholder before key after vars
               Hbefore Hkey).
    cbn [Renderer.expand]. rewrite Hunknown.
    unfold Renderer.open_tag, Renderer.close_tag.
    now rewrite !append_assoc.
  - reflexivity.
Qed.

Lemma renderer_substitutes_known_placeholders_witness :
  Renderer.render ("bot@" ++ "{{" ++ "serv" ++ "}}" ++ ".org")
    [("server", "mail.example.org"); ("hostname", "h")]
  = "bot@{{serv}}.org" /\
  Renderer.render ("bot@" ++ "{{" ++ "hostname" ++ "}}" ++ ".org")
    [("server", "mail.example.org"); ("hostname", "h")]
  = "bot@h.org".
Proof.
  split.
  - exact (proj1 (proj2 (proj2 (proj2
             renderer_substitutes_known_placeholders)))
             "bot@" "serv" ".org"
             [("server", "mail.example.org"); ("hostname", "h")]
             eq_refl eq_refl eq_refl).
  - exact (proj1 (proj2 renderer_substitutes_known_placeholders)
             "bot@" "hostname" ".org"
             [("server", "mail.example.org"); ("hostname", "h")] "h"
             eq_refl eq_refl eq_refl).
Defined.

(** ** More on the worker *)

Ltac last_call :=
  match goal with
  | |- exists before c, ?l = _ /\ _ =>
      exists (removelast l), (last l Quit); cbn [removelast last app]
  end.

(** X1: the only exceptions that leave [send_mail_worker] are the error of
    the SMTP call that failed, which is then the last call made, and the
    KeyError of a key the account lacks: server, port, tls, username, or
    password when the username is not empty.  A timeout never leaves
    it. *)
Theorem worker_exceptions W config mail event e :
  snd (send_mail_worker W config mail event) = Raise e ->
  (exists d, e = SMTPException d /\
     exists before c,
       fst (send_mail_worker W config mail event) = (before ++ [c])%list /\
       outcome_of W c = Fails d) \/
  (e = KeyError "server" /\ server config = None) \/
  (e = KeyError "port" /\ port config = None) \/
  (e = KeyError "tls" /\ tls config = None) \/
  (e = KeyError "username" /\ username config = None) \/
  (e = KeyError "password" /\ password config = None /\
   exists user, username config = Some user /\ user <> "").
Proof.
  unfold_worker. split_cases; intros H; try discriminate;
    injection H as <-;
    first
      [ left; eexists; split; [reflexivity |]; last_call;
        split; [reflexivity | now known_outcome]
      | right; left; now split
      | right; right; left; now split
      | right; right; right; left; now split
      | right; right; right; right; left; now split
      | right; right; right; right; right;
        split; [reflexivity | split; [reflexivity |]];
        eexists; split; [reflexivity |];
        intros ->; cbn in *; discriminate ].
Qed.

Lemma worker_exceptions_witness :
  (exists d, SMTPException "(535, b'Authentication failed')" = SMTPException d
     /\ exists before c,
          fst (send_mail_worker Sample.rejecting Sample.relay
                 (MIMEText_new "hello") Sample.testmail)
          = (before ++ [c])%list /\
          outcome_of Sample.rejecting c = Fails d) \/
  (SMTPException "(535, b'Authentication failed')" = KeyError "server" /\
   server Sample.relay = None) \/
  (SMTPException "(535, b'Authentication failed')" = KeyError "port" /\
   port Sample.relay = None) \/
  (SMTPException "(535, b'Authentication failed')" = KeyError "tls" /\
   tls Sample.relay = None) \/
  (SMTPException "(535, b'Authentication failed')" = KeyError "username" /\
   username Sample.relay = None) \/
  (SMTPException "(535, b'Authentication failed')" = KeyError "password" /\
   password Sample.relay = None /\
   exists user, username Sample.relay = Some user /\ user <> "").
Proof.
  exact (worker_exceptions Sample.rejecting Sample.relay
           (MIMEText_new "hello") Sample.testmail _ eq_refl).
Defined.

(** X2: the worker reports success exactly when it ended the session
    with a [quit] that succeeded. *)
Theorem success_iff_clean_quit W config mail event :
  (exists l, snd (send_mail_worker W config mail event)
             = Return (true, l, event)) <->
  (In Quit (fst (send_mail_worker W config mail event)) /\
   outcome_of W Quit = Succeeds).
Proof.
  unfold_worker. split_cases; cbn [In outcome_of];
    (split;
     [ intros [l H];
       first [ discriminate
             | split;
               [ repeat (first [left; reflexivity | right])
               | known_outcome; reflexivity ] ]
     | intros [Hin Hquit];
       first [ eexists; reflexivity
             | revert Hquit; known_outcome; discriminate
             | repeat (destruct Hin as [Hin | Hin]; try discriminate Hin);
               contradiction ] ]).
Qed.

(** X3: the worker calls [quit] only after [send_message] returned, so
    after the server accepted the message; and when [quit] then raises an
    exception other than [socket.timeout], as the library does when the
    reply to it does not arrive in time, that exception leaves the
    worker: no DeliveryOutcome is returned although the message was
    accepted. *)
Theorem quit_follows_acceptance W config mail event :
  In Quit (fst (send_mail_worker W config mail event)) ->
  (exists response, on_send_message W mail = Done response) /\
  In (SendMessage mail) (fst (send_mail_worker W config mail event)) /\
  (forall d,
      outcome_of W Quit = Fails d ->
      snd (send_mail_worker W config mail event) = Raise (SMTPException d)).
Proof.
  unfold_worker. split_cases; cbn [In outcome_of]; intros Hin;
    first
      [ repeat (destruct Hin as [Hin | Hin]; try discriminate Hin);
        contradiction
      | split; [eexists; reflexivity |];
        split; [repeat (first [left; reflexivity | right]) |];
        intros d; known_outcome; intros Hd;
        first [ discriminate Hd | injection Hd as <-; reflexivity ] ].
Qed.

Lemma quit_follows_acceptance_witness :
  (exists response,
     on_send_message Edge.stalled_quit (MIMEText_new "hello")
     = Done response) /\
  snd (send_mail_worker Edge.stalled_quit Sample.localhost
         (MIMEText_new "hello") Sample.testmail)
  = Raise (SMTPException "Connection unexpectedly closed: timed out").
Proof.
  destruct (quit_follows_acceptance Edge.stalled_quit Sample.localhost
              (MIMEText_new "hello") Sample.testmail)
    as [Haccepted [_ Hraises]].
  - cbn. tauto.
  - split; [exact Haccepted | exact (Hraises _ eq_refl)].
Defined.

Ltac distinct_calls :=
  repeat (constructor;
          [ cbn [In]; intros Hdup;
            repeat (destruct Hdup as [Hdup | Hdup]; try discriminate Hdup);
            contradiction
          | ]);
  constructor.

(** X4: the worker makes no call at all exactly when the account lacks
    the server or the port key; otherwise its first call opens the
    connection to that server and port with a timeout of 30, over SSL
    unless the ssl key is there and false.  It makes no call twice and at
    most five calls. *)
Theorem calls_start_with_one_connect W config mail event :
  (fst (send_mail_worker W config mail event) = [] <->
   server config = None \/ port config = None) /\
  (forall c rest,
      fst (send_mail_worker W config mail event) = c :: rest ->
      exists host p,
        server config = Some host /\ port config = Some p /\
        c = Connect (match ssl config with
                     | Some false => false
                     | _ => true
                     end) host p 30) /\
  NoDup (fst (send_mail_worker W config mail event)) /\
  length (fst (send_mail_worker W config mail event)) <= 5.
Proof.
  unfold_worker. split_cases;
    (split;
     [ split;
       [ intros H; first [discriminate H | now left | now right]
       | intros [H | H]; first [discriminate H | reflexivity] ]
     | split;
       [ intros c rest H;
         first
           [ discriminate H
           | injection H as <- _;
             do 2 eexists; split; [reflexivity | split; [reflexivity |]];
             repeat match goal with
                    | b : bool |- _ => destruct b
                    end; reflexivity ]
       | split; [distinct_calls | cbn [length]; lia] ] ]).
Qed.

(** ** More on the dispatcher *)

Lemma filter_name_unnamed n registry :
  (exists a, In a registry /\ name a = None) ->
  filter_name n registry = Raise (KeyError "name").
Proof.
  induction registry as [|b registry IH]; intros [a [Hin Ha]].
  - contradiction.
  - cbn. destruct (name b) as [m|] eqn:Eb; [| reflexivity].
    destruct Hin as [-> | Hin]; [congruence |].
    rewrite IH; [reflexivity | now exists a].
Qed.

Section DispatchEdges.

Variable render : string -> list (string * string) -> string.
Variable as_string : MIMEText -> string.
Variable os : string -> list string -> string -> process_end.
Variable hostname : string.

(** Runs the dispatcher through every way its reads can end. *)
Ltac split_dispatch :=
  unfold_dispatch;
  repeat (split_step; cbn [fst snd app]).

(** X5: whatever the configuration and the request, one dispatch uses at
    most one backend; it uses one exactly when it returns normally with
    [mail_send] true, so a dispatch that raises has used none; and every
    task it fires goes to the channel of the worker pool. *)
Theorem one_backend_or_none config event :
  backend_uses (fst (dispatch render as_string os hostname config event))
  <= 1 /\
  (backend_uses (fst (dispatch render as_string os hostname config event))
   = 1 <->
   snd (dispatch render as_string os hostname config event) = Return tt /\
   mail_send config = true) /\
  length (submitted
            (fst (dispatch render as_string os hostname config event)))
  = length (filter is_fire_event
              (fst (dispatch render as_string os hostname config event))).
Proof.
  unfold backend_uses. split_dispatch; cbn;
    (split; [lia | split; [| reflexivity]]);
    (split; [intros H; first [discriminate H | now split]
            | intros [H1 H2]; first [discriminate | reflexivity]]).
Qed.

(** X6: one account without a name key anywhere in the registry makes
    every dispatch fail with the KeyError of that key before anything is
    logged or sent, also when the request names an account that comes
    before it. *)
Theorem unnamed_account_breaks_dispatch config event :
  (exists a, In a (accounts config) /\ name a = None) ->
  dispatch render as_string os hostname config event
  = ([], Raise (KeyError "name")).
Proof.
  intros Hunnamed. unfold_dispatch.
  now rewrite (filter_name_unnamed _ _ Hunnamed).
Qed.

(** X7: what the dispatcher does when the resolved account lacks a key.
    Without [mail_from] or [server] it raises before logging anything,
    for a delegating account too; without [use_sendmail] it raises after
    its first two log lines when [mail_send] is true; without the binary
    or the arguments of a delegating account it raises after the third
    log line and runs no process. *)
Theorem dispatcher_missing_keys config event a :
  resolves_to config event a ->
  (mail_from a = None ->
   dispatch render as_string os hostname config event
   = ([], Raise (KeyError "mail_from"))) /\
  (forall template,
      mail_from a = Some template ->
      server a = None ->
      dispatch render as_string os hostname config event
      = ([], Raise (KeyError "server"))) /\
  (forall template host,
      mail_from a = Some template ->
      server a = Some host ->
      mail_send config = true ->
      (use_sendmail a = None ->
       dispatch render as_string os hostname config event
       = ([Log [LStr "MimeMail:";
                LMime (built_mail render hostname event template host)]
             verbose false;
           Log [LStr "Sending mail to"; LStr (to_address event)] info false],
          Raise (KeyError "use_sendmail"))) /\
      (use_sendmail a = Some true ->
       sendmail_binary a = None \/
       sendmail_extra_arguments a = None ->
       fst (dispatch render as_string os hostname config event)
       = [Log [LStr "MimeMail:";
               LMime (built_mail render hostname event template host)]
            verbose false;
          Log [LStr "Sending mail to"; LStr (to_address event)] info false;
          Log [LStr "Would now task sendmail to send the mail"] info false]
       /\
       snd (dispatch render as_string os hostname config event)
       = Raise (KeyError (match sendmail_binary a with
                          | None => "sendmail_binary"
                          | Some _ => "sendmail_extra_arguments"
                          end)))).
Proof.
  intros [later Hfilter]. unfold_dispatch. rewrite Hfilter.
  split; [intros ->; reflexivity |].
  split; [intros template -> ->; reflexivity |].
  intros template host -> -> ->.
  split; [intros ->; reflexivity |].
  intros -> [Hmissing | Hmissing]; rewrite Hmissing.
  - split; reflexivity.
  - destruct (sendmail_binary a); split; reflexivity.
Qed.

End DispatchEdges.

(** X8: the selector "default" is reserved.  A request reaches an account
    whose name is "default" only with the selector "default" and when the
    configured default account is that name; and resolving the resolved
    name again changes nothing. *)
Theorem selector_default_is_reserved config event :
  (forall a,
      resolves_to config event a ->
      name a = Some "default" ->
      account event = "default" /\ default_account config = "default") /\
  account_name config (with_selector event (account_name config event))
  = account_name config event.
Proof.
  split.
  - intros a [later Hfilter] Ha.
    apply filter_name_head in Hfilter.
    destruct Hfilter as [before [after [_ [Hname _]]]].
    rewrite Ha in Hname. injection Hname as Hname.
    unfold account_name in Hname.
    destruct (String.eqb_spec (account event) "default") as [E | E].
    + now split.
    + now destruct E.
  - unfold account_name, with_selector. cbn [account].
    destruct (String.eqb_spec (account event) "default") as [E | E].
    + destruct (String.eqb_spec (default_account config) "default");
        reflexivity.
    + apply String.eqb_neq in E. now rewrite E.
Qed.

(** ** The argument list of the delegated command *)

Lemma split_when_nonempty p s : split_when p s <> [].
Proof.
  destruct s as [|c s]; cbn; [discriminate |].
  destruct (p c); [discriminate |].
  destruct (split_when p s); discriminate.
Qed.

Lemma concat_cons_char sep c w ws :
  String.concat sep (String c w :: ws) = String c (String.concat sep (w :: ws)).
Proof.
  destruct ws; reflexivity.
Qed.

(** X9: [split] and joining with single spaces are inverse to each other
    on the argument string: the arguments the dispatcher passes, joined by
    single spaces, are the configured string again; no argument contains
    a space, and there is one more argument than there are spaces, so
    never none. *)
Theorem split_join_round_trip (arguments : string) :
  String.concat " " (split arguments " ") = arguments /\
  Forall (fun w => has_char " " w = false) (split arguments " ") /\
  length (split arguments " ") = S (count_char " " arguments).
Proof.
  unfold split. induction arguments as [|c s [IHjoin [IHfree IHlen]]].
  - repeat split. repeat constructor.
  - cbn [split_when count_char has_char].
    destruct (Ascii.eqb_spec " " c) as [<- | Hc].
    + pose proof (split_when_nonempty (Ascii.eqb " ") s) as Hne.
      split; [| split].
      * cbn [String.concat].
        destruct (split_when (Ascii.eqb " ") s) as [|w ws];
          [now destruct Hne |].
        cbn [append]. now rewrite IHjoin.
      * constructor; [reflexivity | exact IHfree].
      * cbn [length]. now rewrite IHlen.
    + pose proof (split_when_nonempty (Ascii.eqb " ") s) as Hne.
      destruct (split_when (Ascii.eqb " ") s) as [|w ws];
        [now destruct Hne |].
      split; [| split].
      * rewrite concat_cons_char. now rewrite IHjoin.
      * inversion IHfree as [|? ? Hw Hws]; subst.
        constructor; [| exact Hws].
        cbn [has_char]. apply Ascii.eqb_neq in Hc. now rewrite Hc.
      * exact IHlen.
Qed.

Lemma split_when_free p w :
  (forall c, has_char c w = true -> p c = false) ->
  split_when p w = [w].
Proof.
  induction w as [|x w IH]; intros Hfree; [reflexivity |].
  cbn [split_when]. rewrite (Hfree x).
  - rewrite IH; [reflexivity |].
    intros c Hc. apply Hfree. cbn [has_char]. rewrite Hc. apply orb_true_r.
  - cbn [has_char]. now rewrite Ascii.eqb_refl.
Qed.

Lemma split_when_word p w sep rest :
  (forall c, has_char c w = true -> p c = false) ->
  p sep = true ->
  split_when p (w ++ String sep rest) = w :: split_when p rest.
Proof.
  intros Hfree Hsep. induction w as [|x w IH]; cbn [append split_when].
  - now rewrite Hsep.
  - rewrite (Hfree x).
    + rewrite IH; [reflexivity |].
      intros c Hc. apply Hfree. cbn [has_char]. rewrite Hc.
      apply orb_true_r.
    + cbn [has_char]. now rewrite Ascii.eqb_refl.
Qed.

Lemma split_when_words p ws :
  ws <> [] ->
  p " "%char = true ->
  Forall (fun w => forall c, has_char c w = true -> p c = false) ws ->
  split_when p (String.concat " " ws) = ws.
Proof.
  intros Hne Hspace Hfree. induction Hfree as [|w ws Hw Hws IH];
    [now destruct Hne |].
  destruct ws as [|w' ws].
  - cbn [String.concat]. now apply split_when_free.
  - change (String.concat " " (w :: w' :: ws))
      with (w ++ String " " (String.concat " " (w' :: ws))).
    rewrite (split_when_word p w _ _ Hw Hspace).
    rewrite IH; [reflexivity | discriminate].
Qed.

(** X10: when the configured argument string is made of words (not empty,
    without white space) separated by single spaces, the arguments the
    dispatcher passes are these words, and they are the arguments that
    splitting on white space gives. *)
Theorem words_split_as_specified (ws : list string) (binary : string) :
  ws <> [] ->
  Forall is_word ws ->
  split (String.concat " " ws) " " = ws /\
  split_whitespace (String.concat " " ws) = ws /\
  binary :: split (String.concat " " ws) " "
  = spec_argv binary (String.concat " " ws).
Proof.
  intros Hne Hwords.
  assert (Hsplit : split (String.concat " " ws) " " = ws).
  { unfold split. apply split_when_words; [exact Hne | reflexivity |].
    apply Forall_impl with (2 := Hwords).
    intros w [_ Hfree] c Hc.
    destruct (Ascii.eqb_spec " " c) as [<- | _]; [| reflexivity].
    now specialize (Hfree _ Hc). }
  assert (Hspec : split_whitespace (String.concat " " ws) = ws).
  { unfold split_whitespace.
    rewrite split_when_words; [| exact Hne | reflexivity |].
    - clear Hne Hsplit. induction Hwords as [|w ws [Hw _] _ IH];
        [reflexivity |].
      cbn [filter]. apply String.eqb_neq in Hw. rewrite Hw.
      cbn [negb]. now rewrite IH.
    - apply Forall_impl with (2 := Hwords). now intros w [_ Hfree]. }
  split; [exact Hsplit | split; [exact Hspec |]].
  unfold spec_argv. now rewrite Hsplit, Hspec.
Qed.

Lemma words_split_as_specified_witness :
  split (String.concat " " ["-t"; "-oi"]) " " = ["-t"; "-oi"].
Proof.
  refine (proj1 (words_split_as_specified ["-t"; "-oi"] "/usr/bin/sendmail"
                   _ _)).
  - discriminate.
  - repeat (apply Forall_cons;
            [ split; [discriminate |];
              intros c Hc; cbn [has_char] in Hc;
              repeat match type of Hc with
                     | (Ascii.eqb c ?x || _)%bool = true =>
                         let E := fresh "E" in
                         destruct (Ascii.eqb_spec c x) as [E | _];
                         [rewrite E; reflexivity | cbn [orb] in Hc]
                     end; discriminate
            | ]).
    apply Forall_nil.
Defined.

(** ** From the dispatcher to the Result Reporter *)

Lemma timeout_is_returned W config mail event c d :
  In c (fst (send_mail_worker W config mail event)) ->
  outcome_of W c = TimesOut d ->
  exists l,
    snd (send_mail_worker W config mail event)
    = Return (false, l ++ "Could not send email: " ++ d ++ nl, event).
Proof.
  intros Hin Htimeout.
  destruct (in_last_or_before c c _ Hin) as [Hearlier | [Hlast _]].
  - apply earlier_calls_succeeded in Hearlier. congruence.
  - assert (Hne : fst (send_mail_worker W config mail event) <> [])
      by (intros E; rewrite E in Hin; contradiction).
    pose proof (last_call_decides W config mail event c Hne) as Hres.
    now rewrite <- Hlast, Htimeout in Hres.
Qed.

Lemma failure_is_raised W config mail event c d :
  In c (fst (send_mail_worker W config mail event)) ->
  outcome_of W c = Fails d ->
  snd (send_mail_worker W config mail event) = Raise (SMTPException d).
Proof.
  intros Hin Hfails.
  destruct (in_last_or_before c c _ Hin) as [Hearlier | [Hlast _]].
  - apply earlier_calls_succeeded in Hearlier. congruence.
  - assert (Hne : fst (send_mail_worker W config mail event) <> [])
      by (intros E; rewrite E in Hin; contradiction).
    pose proof (last_call_decides W config mail event c Hne) as Hres.
    now rewrite <- Hlast, Hfails in Hres.
Qed.

Lemma clean_quit_succeeds W config mail event :
  In Quit (fst (send_mail_worker W config mail event)) ->
  outcome_of W Quit = Succeeds ->
  exists l,
    snd (send_mail_worker W config mail event) = Return (true, l, event).
Proof.
  unfold_worker. split_cases; cbn [In outcome_of]; intros Hin Hquit;
    first [ eexists; reflexivity
          | revert Hquit; known_outcome; discriminate
          | repeat (destruct Hin as [Hin | Hin]; try discriminate Hin);
            contradiction ].
Qed.

Section Pipeline.

Variable render : string -> list (string * string) -> string.
Variable as_string : MIMEText -> string.
Variable os : string -> list string -> string -> process_end.
Variable hostname : string.
Variables (config : Config) (event : send_mail_event) (a : Account)
  (template host : string) (W : smtp_world).

Hypothesis gate_open : mail_send config = true.
Hypothesis resolved : resolves_to config event a.
Hypothesis has_mail_from : mail_from a = Some template.
Hypothesis has_server : server a = Some host.
Hypothesis direct : use_sendmail a = Some false.

Local Abbreviation mime_mail :=
  (built_mail render hostname event template host).
Local Abbreviation call :=
  {| task_config := a; task_mail := mime_mail; task_event := event |}.
Local Abbreviation trace :=
  (fst (dispatch render as_string os hostname config event)).

Lemma reported_direct :
  reported W trace
  = match snd (send_mail_worker W a mime_mail event) with
    | Return outcome => fst (task_success call outcome [])
    | Raise _ => []
    end.
Proof.
  rewrite (dispatch_direct render as_string os hostname config event a
             template host resolved has_mail_from has_server gate_open
             direct).
  unfold reported, submitted, task_outcome. cbn.
  destruct (snd (send_mail_worker W a _ event)); cbn;
    rewrite ?app_nil_r; reflexivity.
Qed.

(** X11: what the Result Reporter logs for a request sent directly.  When
    the worker ended the session with a [quit] that succeeded, one line
    that the mail was sent.  When a call of the worker raised
    [socket.timeout], as the connection attempt does when the server does
    not answer in time, one line at the error level with the call and the
    worker's log, which ends with the timeout's detail.  When a call
    raised any other exception, as the library does for a reply that does
    not arrive in time or for refused credentials, or when the worker
    raised for a missing key, nothing at all. *)
Theorem reporter_logs_outcome :
  (In Quit (fst (send_mail_worker W a mime_mail event)) ->
   outcome_of W Quit = Succeeds ->
   reported W trace = [Log [LStr "Sent mail successfully."] info false]) /\
  (forall c d,
      In c (fst (send_mail_worker W a mime_mail event)) ->
      outcome_of W c = TimesOut d ->
      exists l,
        reported W trace
        = [Log [LStr "Sending mail failed:";
                LTaskSuccess call
                  (false, l ++ "Could not send email: " ++ d ++ nl, event);
                LCall call;
                LStr (l ++ "Could not send email: " ++ d ++ nl)]
             error false]) /\
  (forall c d,
      In c (fst (send_mail_worker W a mime_mail event)) ->
      outcome_of W c = Fails d ->
      reported W trace = []) /\
  (forall e,
      snd (send_mail_worker W a mime_mail event) = Raise e ->
      reported W trace = []).
Proof.
  rewrite reported_direct. split; [| split; [| split]].
  - intros Hin Hquit.
    destruct (clean_quit_succeeds W a mime_mail event Hin Hquit) as [l ->].
    reflexivity.
  - intros c d Hin Htimeout.
    destruct (timeout_is_returned W a mime_mail event c d Hin Htimeout)
      as [l ->].
    exists l. reflexivity.
  - intros c d Hin Hfails.
    now rewrite (failure_is_raised W a mime_mail event c d Hin Hfails).
  - intros e ->. reflexivity.
Qed.

End Pipeline.

Lemma reporter_logs_outcome_witness :
  reported Sample.healthy
    (fst (dispatch Renderer.render Sample.as_string Sample.os_ok "h"
            Sample.config Sample.testmail))
  = [Log [LStr "Sent mail successfully."] info false] /\
  reported Sample.rejecting
    (fst (dispatch Renderer.render Sample.as_string Sample.os_ok "h"
            (Sample.config_of true "relay" [Sample.relay]) Sample.testmail))
  = [] /\
  reported Edge.stalled_quit
    (fst (dispatch Renderer.render Sample.as_string Sample.os_ok "h"
            Sample.config Sample.testmail))
  = [] /\
  (exists l,
     reported Sample.silent
       (fst (dispatch Renderer.render Sample.as_string Sample.os_ok "h"
               Sample.config Sample.testmail))
     = [Log [LStr "Sending mail failed:";
             LTaskSuccess
               {| task_config := Sample.localhost;
                  task_mail := built_mail Renderer.render "h" Sample.testmail
                                 "bot@{{server}}" "localhost";
                  task_event := Sample.testmail |}
               (false, l ++ "Could not send email: " ++ "timed out" ++ nl,
                Sample.testmail);
             LCall
               {| task_config := Sample.localhost;
                  task_mail := built_mail Renderer.render "h" Sample.testmail
                                 "bot@{{server}}" "localhost";
                  task_event := Sample.testmail |};
             LStr (l ++ "Could not send email: " ++ "timed out" ++ nl)]
          error false]).
Proof.
  split; [| split; [| split]].
  - refine (proj1 (reporter_logs_outcome Renderer.render Sample.as_string
                     Sample.os_ok "h" Sample.config Sample.testmail
                     Sample.localhost "bot@{{server}}" "localhost"
                     Sample.healthy eq_refl (ex_intro _ [] eq_refl) eq_refl
                     eq_refl eq_refl) _ eq_refl).
    cbn. tauto.
  - exact (proj2 (proj2 (proj2
             (reporter_logs_outcome Renderer.render
                Sample.as_string Sample.os_ok "h"
                (Sample.config_of true "relay" [Sample.relay])
                Sample.testmail Sample.relay "bot@{{server}}"
                "mail.example.org" Sample.rejecting eq_refl
                (ex_intro _ [] eq_refl) eq_refl eq_refl eq_refl)))
             _ eq_refl).
  - refine (proj1 (proj2 (proj2
             (reporter_logs_outcome Renderer.render
                Sample.as_string Sample.os_ok "h" Sample.config
                Sample.testmail Sample.localhost "bot@{{server}}"
                "localhost" Edge.stalled_quit eq_refl
                (ex_intro _ [] eq_refl) eq_refl eq_refl eq_refl)))
             Quit _ _ eq_refl).
    cbn. tauto.
  - refine (proj1 (proj2
             (reporter_logs_outcome Renderer.render
                Sample.as_string Sample.os_ok "h" Sample.config
                Sample.testmail Sample.localhost "bot@{{server}}"
                "localhost" Sample.silent eq_refl
                (ex_intro _ [] eq_refl) eq_refl eq_refl eq_refl))
             (Connect false "localhost" 25 30) "timed out" _ eq_refl).
    cbn. tauto.
Defined.

(** ** The schema's defaults and the keys the code reads *)

Lemma resolved_in_registry config event a :
  resolves_to config event a -> In a (accounts config).
Proof.
  intros [later Hfilter]. apply filter_name_head in Hfilter.
  destruct Hfilter as [before [after [-> _]]].
  apply in_or_app. right. now left.
Qed.

(** X12: an account that has every key for which the schema declares a
    default can make the worker raise a KeyError for the password only,
    and only when its username is not empty; and a registry of such
    accounts never makes the dispatcher raise a KeyError. *)
Theorem defaulted_keys_leave_only_password :
  (forall W a mail event k,
      has_defaulted_keys a ->
      snd (send_mail_worker W a mail event) = Raise (KeyError k) ->
      k = "password" /\ password a = None /\
      exists user, username a = Some user /\ user <> "") /\
  (forall render as_string os hostname config event k,
      (forall a, In a (accounts config) -> has_defaulted_keys a) ->
      snd (dispatch render as_string os hostname config event)
      <> Raise (KeyError k)).
Proof.
  split.
  - intros W a mail event k Hkeys.
    destruct Hkeys as [_ [Hserver [Hport [_ [Htls [_ [_ [Huser _]]]]]]]].
    specialize (Hserver ltac:(discriminate)).
    specialize (Hport ltac:(discriminate)).
    specialize (Htls ltac:(discriminate)).
    specialize (Huser ltac:(discriminate)).
    revert Hserver Hport Htls Huser.
    unfold_worker. split_cases; intros Hserver Hport Htls Huser H;
      try discriminate H; try congruence.
    all: injection H as <-;
      (split; [reflexivity | split; [reflexivity |]]);
      eexists; (split; [reflexivity |]); intros ->; cbn in *; discriminate.
  - intros render as_string os hostname config event k Hkeys.
    destruct (filter_name_named (account_name config event) (accounts config))
      as [matching Hfilter].
    { intros a Ha. destruct (Hkeys a Ha) as [Hname _].
      apply Hname. discriminate. }
    unfold_dispatch. rewrite Hfilter.
    destruct matching as [|a later]; [cbn; intros H; discriminate H |].
    assert (Ha : has_defaulted_keys a).
    { apply Hkeys, (resolved_in_registry config event a). now exists later. }
    destruct Ha as [_ [Hserver [_ [_ [_ [_ [Hfrom [_ [_ [Huse [Hargs Hbin]]]]]]]]]]].
    specialize (Hserver ltac:(discriminate)).
    specialize (Hfrom ltac:(discriminate)).
    specialize (Huse ltac:(discriminate)).
    specialize (Hargs ltac:(discriminate)).
    specialize (Hbin ltac:(discriminate)).
    revert Hserver Hfrom Huse Hargs Hbin. cbn [fst snd].
    repeat (split_step; cbn [fst snd app]);
      intros Hserver Hfrom Huse Hargs Hbin; cbn [snd];
      first [intros H; discriminate H | congruence].
Qed.

Lemma defaulted_keys_leave_only_password_witness :
  snd (dispatch Renderer.render Sample.as_string Sample.os_ok "h"
         Sample.config Sample.testmail)
  <> Raise (KeyError "use_sendmail").
Proof.
  refine (proj2 defaulted_keys_leave_only_password Renderer.render
            Sample.as_string Sample.os_ok "h" Sample.config Sample.testmail
            "use_sendmail" _).
  intros a [<- | []]. repeat split; intros H;
    first [exact H | intros E; discriminate E].
Defined.

(** ** The edge cases on the sample data *)

Lemma unnamed_account_breaks_dispatch_witness :
  dispatch Renderer.render Sample.as_string Sample.os_ok "h"
    (Sample.config_of true "localhost" [Sample.localhost; Edge.unnamed])
    Sample.testmail
  = ([], Raise (KeyError "name")).
Proof.
  apply unnamed_account_breaks_dispatch.
  exists Edge.unnamed. split; [right; left; reflexivity | reflexivity].
Defined.

Lemma dispatcher_missing_keys_witness :
  dispatch Renderer.render Sample.as_string Sample.os_ok "h"
    (Sample.config_of true "localhost" [Sample.schema_default])
    Sample.testmail
  = ([Log [LStr "MimeMail:";
           LMime (built_mail Renderer.render "h" Sample.testmail
                    "bot@{{server}}" "localhost")]
        verbose false;
      Log [LStr "Sending mail to"; LStr "root@localhost"] info false],
     Raise (KeyError "use_sendmail")).
Proof.
  exact (proj1 (proj2 (proj2
           (dispatcher_missing_keys Renderer.render Sample.as_string
              Sample.os_ok "h"
              (Sample.config_of true "localhost" [Sample.schema_default])
              Sample.testmail Sample.schema_default
              (ex_intro _ [] eq_refl)))
           "bot@{{server}}" "localhost" eq_refl eq_refl eq_refl) eq_refl).
Defined.

Lemma selector_default_is_reserved_witness :
  account (Sample.request "default") = "default" /\
  default_account (Sample.config_of true "default" [Edge.named_default])
  = "default".
Proof.
  exact (proj1 (selector_default_is_reserved
                  (Sample.config_of true "default" [Edge.named_default])
                  (Sample.request "default"))
           Edge.named_default (ex_intro _ [] eq_refl) eq_refl).
Defined.
